(** * Asynchronous file I/O on Windows: a model of [src/win/file.c]

    The development embeds the file handle, the read/write submission
    path, the completion processors and the endgame of [src/win/file.c]
    as executable Rocq functions with explicit state passing, and proves
    the properties the specification states about them. *)

From Stdlib Require Import ZArith List Bool Lia.
Import ListNotations.
Local Open Scope Z_scope.

(** ** Machine integers

    [LARGE_INTEGER.QuadPart] is a signed 64-bit integer, [DWORD] an
    unsigned 32-bit one.  Arithmetic on them wraps. *)

Module Int.

Definition half64 : Z := Eval cbv in 2 ^ 63.
Definition mod64 : Z := Eval cbv in 2 ^ 64.
Definition mod32 : Z := Eval cbv in 2 ^ 32.

(** The value a signed 64-bit object holds after [z] is stored in it. *)
Definition wrap64 (z : Z) : Z := (z + half64) mod mod64 - half64.

(** [a + b] on two [LONGLONG]s. *)
Definition add64 (a b : Z) : Z := wrap64 (a + b).

Definition in_int64 (z : Z) : Prop := - half64 <= z < half64.

(** The value an unsigned 32-bit object holds after [z] is stored in it. *)
Definition dword (z : Z) : Z := z mod mod32.

(** The value a signed [w]-bit object holds after [z] is stored in it. *)
Definition signed (w z : Z) : Z := (z + 2 ^ (w - 1)) mod 2 ^ w - 2 ^ (w - 1).

(** The two halves of a [LARGE_INTEGER], as they are stored in the
    [DWORD] fields [Offset] and [OffsetHigh] of an [OVERLAPPED]. *)
Definition LowPart (q : Z) : Z := dword q.
Definition HighPart (q : Z) : Z := dword (q / mod32).

(** The 64-bit offset an [OVERLAPPED] designates. *)
Definition QuadPart (lo hi : Z) : Z := wrap64 (lo + mod32 * hi).

Fixpoint sum (l : list Z) : Z :=
  match l with
  | [] => 0
  | x :: l' => x + sum l'
  end.

End Int.

(** ** Handle flags

    The flag word is a bit mask tested with [&] and updated with [|=]. *)

Module Flags.

(** The header that defines the flag constants (internal.h) is not among
    the sources.  The spec lists the flags {bound, shutting, shut, closing,
    closed} as independent members of a set, so each constant is a single
    bit of the flag word, and no two are the same bit. *)

(** Modelled from the spec: the mask of the flag closing. *)
Definition UV_HANDLE_CLOSING : Z := 1.

(** Modelled from the spec: the mask of the flag closed. *)
Definition UV_HANDLE_CLOSED : Z := 2.

(** Modelled from the spec: the mask of the flag bound. *)
Definition UV_HANDLE_BOUND : Z := 4.

(** Modelled from the spec: the mask of the flag shutting. *)
Definition UV_HANDLE_SHUTTING : Z := 256.

(** Modelled from the spec: the mask of the flag shut. *)
Definition UV_HANDLE_SHUT : Z := 512.

(** [flags & mask] used as a C condition. *)
Definition has_flag (flags mask : Z) : bool := negb (Z.land flags mask =? 0).

(** The value of [flags] after [flags |= mask]. *)
Definition add_flag (flags mask : Z) : Z := Z.lor flags mask.

End Flags.

Export Flags.

(** ** Data model *)

(** [INVALID_HANDLE_VALUE] is [(HANDLE)-1]. *)
Definition INVALID_HANDLE_VALUE : Z := -1.

(** [ERROR_IO_PENDING] of the Windows API. *)
Definition ERROR_IO_PENDING : Z := 997.

(** The enumerations of uv.h, which is not among the sources: the members
    [file.c] names, and what a handle or a request is before it is
    initialised. *)
Inductive uv_handle_type := UV_UNKNOWN_HANDLE | UV_FILE.

Inductive uv_req_type := UV_UNKNOWN_REQ | UV_READ | UV_WRITE | UV_SHUTDOWN.

(** The three cases of the [switch] of lines 95-106. *)
Inductive uv_offset_disposition := UV_START | UV_CURRENT | UV_END.

Inductive uv_err_code := UV_UNKNOWN | UV_OK | UV_ENOTSUP | UV_EIO | UV_EINVAL.

Record uv_err_t := mk_err { code : uv_err_code; sys_errno_ : Z }.

Definition uv_ok_ : uv_err_t := mk_err UV_OK 0.

(** A function pointer is the name of the function it points to; a null
    pointer is [None]. *)
Definition callback := option nat.

Record uv_buf_t := mk_buf { base : Z; len : Z }.

(** The fields of [uv_file_t] that [file.c] reads or writes.  The counters
    are the integers the code increments and decrements (the header that
    declares their C type is not among the sources; the spec describes them
    as counters of in-flight requests). *)
Record uv_file_t := mk_file {
  type : uv_handle_type;
  handle : Z;
  flags : Z;
  reqs_pending : Z;
  read_reqs_pending : Z;
  write_reqs_pending : Z;
  read_queue_size : Z;
  write_queue_size : Z;
  file_pointer : Z;
  close_cb : callback
}.

(** The fields of [uv_read_t] / [uv_write_t] that [file.c] reads or writes.
    [req_handle] is the back-reference to the issuing handle, given by the
    native handle it wraps at submission. *)
Record uv_req := mk_req {
  req_type : uv_req_type;
  req_handle : option Z;
  cb : callback;
  bufs : list uv_buf_t;
  bufcnt : Z;
  Offset : Z;
  OffsetHigh : Z;
  queued_bytes : Z;
  error : uv_err_t
}.

(** What the program does to the outside: operating-system calls and
    callbacks, in the order they happen.  [EvReadFile] and [EvWriteFile]
    record the handle and the request as they are when the call is made. *)
Inductive event :=
| EvCreateIoCompletionPort (h : Z)
| EvSetFilePointerEx (h : Z)
| EvCloseHandle (h : Z)
| EvReadFile (file : uv_file_t) (req : uv_req)
| EvWriteFile (file : uv_file_t) (req : uv_req)
| EvGetOverlappedResult (h : Z) (req : uv_req)
| EvReadCb (f : nat) (req : uv_req) (nread : Z) (buf : uv_buf_t)
| EvWriteCb (f : nat) (req : uv_req) (status : Z)
| EvCloseCb (f : nat) (h : uv_file_t).

(** The loop-global state [file.c] touches: [LOOP->last_error], the
    [file_init] counter, the keep-alive reference count, and the log of
    events. *)
Record uv_loop := mk_loop {
  last_error : uv_err_t;
  file_init_count : Z;
  refs : Z;
  log : list event
}.

(** The answer of [ReadFile] / [WriteFile]: the returned [BOOL] and what
    [GetLastError()] gives after the call. *)
Record os_answer := mk_answer { result : bool; GetLastError : Z }.

(** The answer of an operating-system call that yields a value or fails
    with an error number. *)
Inductive os_result (A : Type) :=
| OsOk (a : A)
| OsErr (e : Z).
Arguments OsOk {A} a.
Arguments OsErr {A} e.

(** *** Field updates *)

Definition set_type v (f : uv_file_t) := mk_file v (handle f) (flags f) (reqs_pending f) (read_reqs_pending f) (write_reqs_pending f) (read_queue_size f) (write_queue_size f) (file_pointer f) (close_cb f).
Definition set_handle v (f : uv_file_t) := mk_file (type f) v (flags f) (reqs_pending f) (read_reqs_pending f) (write_reqs_pending f) (read_queue_size f) (write_queue_size f) (file_pointer f) (close_cb f).
Definition set_flags v (f : uv_file_t) := mk_file (type f) (handle f) v (reqs_pending f) (read_reqs_pending f) (write_reqs_pending f) (read_queue_size f) (write_queue_size f) (file_pointer f) (close_cb f).
Definition set_reqs_pending v (f : uv_file_t) := mk_file (type f) (handle f) (flags f) v (read_reqs_pending f) (write_reqs_pending f) (read_queue_size f) (write_queue_size f) (file_pointer f) (close_cb f).
Definition set_read_reqs_pending v (f : uv_file_t) := mk_file (type f) (handle f) (flags f) (reqs_pending f) v (write_reqs_pending f) (read_queue_size f) (write_queue_size f) (file_pointer f) (close_cb f).
Definition set_write_reqs_pending v (f : uv_file_t) := mk_file (type f) (handle f) (flags f) (reqs_pending f) (read_reqs_pending f) v (read_queue_size f) (write_queue_size f) (file_pointer f) (close_cb f).
Definition set_read_queue_size v (f : uv_file_t) := mk_file (type f) (handle f) (flags f) (reqs_pending f) (read_reqs_pending f) (write_reqs_pending f) v (write_queue_size f) (file_pointer f) (close_cb f).
Definition set_write_queue_size v (f : uv_file_t) := mk_file (type f) (handle f) (flags f) (reqs_pending f) (read_reqs_pending f) (write_reqs_pending f) (read_queue_size f) v (file_pointer f) (close_cb f).
Definition set_file_pointer v (f : uv_file_t) := mk_file (type f) (handle f) (flags f) (reqs_pending f) (read_reqs_pending f) (write_reqs_pending f) (read_queue_size f) (write_queue_size f) v (close_cb f).
Definition set_close_cb v (f : uv_file_t) := mk_file (type f) (handle f) (flags f) (reqs_pending f) (read_reqs_pending f) (write_reqs_pending f) (read_queue_size f) (write_queue_size f) (file_pointer f) v.

Definition set_last_error v (l : uv_loop) := mk_loop v (file_init_count l) (refs l) (log l).
Definition set_file_init_count v (l : uv_loop) := mk_loop (last_error l) v (refs l) (log l).
Definition set_refs v (l : uv_loop) := mk_loop (last_error l) (file_init_count l) v (log l).

(** Appends an event to the log. *)
Definition emit (e : event) (l : uv_loop) := mk_loop (last_error l) (file_init_count l) (refs l) (log l ++ [e]).

Definition is_UV_FILE (t : uv_handle_type) : bool :=
  match t with UV_FILE => true | _ => false end.

Definition is_UV_OK (c : uv_err_code) : bool :=
  match c with UV_OK => true | _ => false end.

(** ** The code of [file.c] *)

Section File.

Set Default Proof Using "Type".

(** The translation of operating-system error numbers to [uv_err_code]
    is defined outside [file.c]; the development is parametric in it. *)
Variable uv_translate_sys_error : Z -> uv_err_code.

(** The width in bits of [ssize_t], the type of the byte count the read
    callback receives (test/test-file-io.c, line 16).  The type is defined
    in a header that is not among the sources; the development is
    parametric in its width, which is 32 on a 32-bit build and 64 on a
    64-bit one. *)
Variable ssize_t_bits : Z.

(** The conversion of a value to [ssize_t], as it happens when the value
    is passed for a parameter of that type. *)
Definition to_ssize_t (z : Z) : Z := Int.signed ssize_t_bits z.

(** Modelled from the spec: [uv_set_error] is defined outside [file.c];
    a failed call records its error kind as the loop's last error. *)
Definition uv_set_error (c : uv_err_code) (sys_error : Z) (loop : uv_loop) : uv_loop :=
  set_last_error (mk_err c sys_error) loop.

(** Modelled from the spec: [uv_set_sys_error] is defined outside
    [file.c]; a system error carries the translated error code. *)
Definition uv_set_sys_error (sys_error : Z) (loop : uv_loop) : uv_loop :=
  set_last_error (mk_err (uv_translate_sys_error sys_error) sys_error) loop.

(** Modelled from the spec: [uv_stream_init] is defined outside [file.c];
    a handle starts unbound and open, with no request in flight and
    nothing queued, and holds a keep-alive reference on the loop. *)
Definition uv_stream_init (h : uv_file_t) (loop : uv_loop) : uv_file_t * uv_loop :=
  (mk_file (type h) (handle h) 0 0 0 0 0 0 (file_pointer h) (close_cb h),
   set_refs (refs loop + 1) loop).

(** Modelled from the spec: [uv_req_init] is defined outside [file.c]; it
    initialises the generic request fields. *)
Definition uv_req_init (r : uv_req) : uv_req :=
  mk_req UV_UNKNOWN_REQ (req_handle r) (cb r) (bufs r) (bufcnt r)
         (Offset r) (OffsetHigh r) (queued_bytes r) uv_ok_.

(** Modelled from the spec: [uv_count_bufs] is defined outside [file.c];
    the queued bytes of a request are the lengths of its buffers. *)
Definition uv_count_bufs (bs : list uv_buf_t) (n : Z) : Z :=
  Int.sum (map len (firstn (Z.to_nat n) bs)).

(** Modelled from the spec: [uv_unref] is defined outside [file.c]; it
    releases one keep-alive reference of the loop. *)
Definition uv_unref (loop : uv_loop) : uv_loop :=
  set_refs (refs loop - 1) loop.

(** Modelled from the spec: the macro [DECREASE_PENDING_REQ_COUNT] is
    defined in a header that is not among the sources; the completion
    processor decrements the handle's total pending counter. *)
Definition DECREASE_PENDING_REQ_COUNT (h : uv_file_t) : uv_file_t :=
  set_reqs_pending (reqs_pending h - 1) h.

(** [uv_set_file_handle], lines 7-22.  [iocp] is the outcome of
    [CreateIoCompletionPort], [pos] that of [SetFilePointerEx]. *)
Definition uv_set_file_handle (iocp : os_result unit) (pos : os_result Z)
    (h : uv_file_t) (loop : uv_loop) : Z * uv_file_t * uv_loop :=
  let loop := emit (EvCreateIoCompletionPort (handle h)) loop in
  match iocp with
  | OsErr e => (-1, h, uv_set_sys_error e loop)
  | OsOk _ =>
      let loop := emit (EvSetFilePointerEx (handle h)) loop in
      match pos with
      | OsErr e => (-1, h, uv_set_sys_error e loop)
      | OsOk p => (0, set_file_pointer (Int.wrap64 p) h, loop)
      end
  end.

(** [uv_file_init], lines 24-40.  After a failure [GetLastError()] still
    gives the error number [uv_set_file_handle] has just recorded. *)
Definition uv_file_init (iocp : os_result unit) (pos : os_result Z)
    (h : uv_file_t) (native : Z) (loop : uv_loop) : Z * uv_file_t * uv_loop :=
  let '(h, loop) := uv_stream_init h loop in
  let h := set_reqs_pending 0 h in
  let h := set_type UV_FILE h in
  let h := set_handle native h in
  let loop := set_file_init_count (file_init_count loop + 1) loop in
  let '(r, h, loop) := uv_set_file_handle iocp pos h loop in
  if negb (r =? 0) then
    (-1, h, uv_set_sys_error (sys_errno_ (last_error loop)) loop)
  else
    (0, set_flags (add_flag (flags h) UV_HANDLE_BOUND) h, loop).

(** [close_file], lines 42-46.  The out-parameters [status] and [err] are
    never written and are left out. *)
Definition close_file (file : uv_file_t) (loop : uv_loop) : uv_file_t * uv_loop :=
  let loop := emit (EvCloseHandle (handle file)) loop in
  let file := set_handle INVALID_HANDLE_VALUE file in
  let file := set_flags (add_flag (flags file) UV_HANDLE_SHUT) file in
  (file, loop).

(** The condition of the first [if] of [uv_file_endgame], lines 52-54. *)
Definition shutdown_guard (h : uv_file_t) : bool :=
  has_flag (flags h) UV_HANDLE_SHUTTING
  && negb (has_flag (flags h) UV_HANDLE_SHUT)
  && (write_reqs_pending h =? 0).

(** The first [if] of [uv_file_endgame], lines 52-57: the graceful
    shutdown step. *)
Definition endgame_shutdown (h : uv_file_t) (loop : uv_loop) : uv_file_t * uv_loop :=
  if shutdown_guard h then
    let '(h, loop) := close_file h loop in
    (set_reqs_pending (reqs_pending h - 1) h, loop)
  else (h, loop).

(** The condition of the second [if] of [uv_file_endgame], lines 59-60. *)
Definition close_guard (h : uv_file_t) : bool :=
  has_flag (flags h) UV_HANDLE_CLOSING && (reqs_pending h =? 0).

(** The second [if] of [uv_file_endgame], lines 59-69: the final teardown
    step.  [None] is the failure of the assertion of line 61. *)
Definition endgame_close (h : uv_file_t) (loop : uv_loop) : option (uv_file_t * uv_loop) :=
  if close_guard h then
    if has_flag (flags h) UV_HANDLE_CLOSED then None
    else
      let h := set_flags (add_flag (flags h) UV_HANDLE_CLOSED) h in
      let loop :=
        match close_cb h with
        | Some f => emit (EvCloseCb f h) loop
        | None => loop
        end in
      Some (h, uv_unref loop)
  else Some (h, loop).

(** [uv_file_endgame], lines 48-70. *)
Definition uv_file_endgame (h : uv_file_t) (loop : uv_loop) : option (uv_file_t * uv_loop) :=
  let '(h, loop) := endgame_shutdown h loop in
  endgame_close h loop.

(** The [switch] on the disposition, lines 95-106 and 178-189: the value
    of [true_offset.QuadPart] after it, or [None] where the [UV_END] case
    returns.  [cursor] is [file->file_pointer.QuadPart]. *)
Definition true_offset (offset : Z) (disposition : uv_offset_disposition)
    (cursor : Z) : option Z :=
  match disposition with
  | UV_START => Some (Int.wrap64 offset)
  | UV_CURRENT => Some (Int.add64 cursor offset)
  | UV_END => None
  end.

(** [uv_file_read_offset], lines 80-153.  [os] is the answer of
    [ReadFile].  The result is the returned [int], the request, the handle
    and the loop after the call; [None] where the code reads [bufs[0]] of
    an array that has no element. *)
Definition uv_file_read_offset (req : uv_req) (file : uv_file_t) (offset : Z)
    (disposition : uv_offset_disposition) (bufs_ : list uv_buf_t) (bufcnt_ : Z)
    (read_cb : callback) (os : os_answer) (loop : uv_loop)
    : option (Z * uv_req * uv_file_t * uv_loop) :=
  if negb (bufcnt_ =? 1) then
    Some (-1, req, file, uv_set_error UV_ENOTSUP 0 loop)
  else
    match true_offset offset disposition (file_pointer file) with
    | None => Some (-1, req, file, uv_set_error UV_ENOTSUP 0 loop)
    | Some off =>
        let req := uv_req_init req in
        let req := mk_req UV_READ (Some (handle file)) read_cb bufs_ bufcnt_
                          (Int.LowPart off) (Int.HighPart off)
                          (queued_bytes req) (error req) in
        match bufs req with
        | [] => None
        | b0 :: _ =>
            let file := set_file_pointer (Int.add64 (file_pointer file) (len b0)) file in
            let loop := emit (EvReadFile file req) loop in
            if negb (result os) && negb (GetLastError os =? ERROR_IO_PENDING) then
              Some (-1, req, file, uv_set_sys_error (GetLastError os) loop)
            else
              let q := if result os then 0 else uv_count_bufs bufs_ bufcnt_ in
              let req := mk_req (req_type req) (req_handle req) (cb req) (bufs req)
                                (bufcnt req) (Offset req) (OffsetHigh req) q (error req) in
              let file :=
                if result os then file
                else set_read_queue_size (read_queue_size file + queued_bytes req) file in
              let file := set_reqs_pending (reqs_pending file + 1) file in
              let file := set_read_reqs_pending (read_reqs_pending file + 1) file in
              Some (0, req, file, loop)
        end
    end.

(** [uv_file_read], lines 72-78. *)
Definition uv_file_read (req : uv_req) (file : uv_file_t) (bufs_ : list uv_buf_t)
    (bufcnt_ : Z) (read_cb : callback) (os : os_answer) (loop : uv_loop) :=
  uv_file_read_offset req file 0 UV_CURRENT bufs_ bufcnt_ read_cb os loop.

(** [uv_file_write_offset], lines 163-224.  [os] is the answer of
    [WriteFile]. *)
Definition uv_file_write_offset (req : uv_req) (file : uv_file_t) (offset : Z)
    (disposition : uv_offset_disposition) (bufs_ : list uv_buf_t) (bufcnt_ : Z)
    (cb_ : callback) (os : os_answer) (loop : uv_loop)
    : option (Z * uv_req * uv_file_t * uv_loop) :=
  if negb (bufcnt_ =? 1) then
    Some (-1, req, file, uv_set_error UV_ENOTSUP 0 loop)
  else
    match true_offset offset disposition (file_pointer file) with
    | None => Some (-1, req, file, uv_set_error UV_ENOTSUP 0 loop)
    | Some off =>
        let req := uv_req_init req in
        let req := mk_req UV_WRITE (Some (handle file)) cb_ bufs_ bufcnt_
                          (Int.LowPart off) (Int.HighPart off)
                          (queued_bytes req) (error req) in
        match bufs req with
        | [] => None
        | b0 :: _ =>
            let file := set_file_pointer (Int.add64 (file_pointer file) (len b0)) file in
            let loop := emit (EvWriteFile file req) loop in
            if negb (result os) && negb (GetLastError os =? ERROR_IO_PENDING) then
              Some (-1, req, file, uv_set_sys_error (GetLastError os) loop)
            else
              let q := if result os then 0 else uv_count_bufs bufs_ bufcnt_ in
              let req := mk_req (req_type req) (req_handle req) (cb req) (bufs req)
                                (bufcnt req) (Offset req) (OffsetHigh req) q (error req) in
              let file :=
                if result os then file
                else set_write_queue_size (write_queue_size file + queued_bytes req) file in
              let file := set_reqs_pending (reqs_pending file + 1) file in
              let file := set_write_reqs_pending (write_reqs_pending file + 1) file in
              Some (0, req, file, loop)
        end
    end.

(** [uv_file_write], lines 155-161. *)
Definition uv_file_write (req : uv_req) (file : uv_file_t) (bufs_ : list uv_buf_t)
    (bufcnt_ : Z) (cb_ : callback) (os : os_answer) (loop : uv_loop) :=
  uv_file_write_offset req file 0 UV_CURRENT bufs_ bufcnt_ cb_ os loop.

(** The value of the local [bytes_transferred] after lines 232-234 and
    251-253.  [query] is the answer of [GetOverlappedResult]: [Some n]
    when it succeeds and stores [n], [None] when it fails. *)
Definition bytes_transferred (query : option Z) : Z :=
  match query with
  | Some n => Int.dword n
  | None => Int.dword (-1)
  end.

(** [uv_process_file_write_req], lines 226-243.  [None] is the failure of
    the assertion of line 229.  The callback receives the request and a
    status; [bytes_transferred] is not used after it is set. *)
Definition uv_process_file_write_req (h : uv_file_t) (req : uv_req)
    (query : option Z) (loop : uv_loop) : option (uv_file_t * uv_loop) :=
  if negb (is_UV_FILE (type h)) then None
  else
    let h := set_write_queue_size (write_queue_size h - queued_bytes req) h in
    let loop := emit (EvGetOverlappedResult (handle h) req) loop in
    let _ := bytes_transferred query in
    let loop :=
      match cb req with
      | Some f =>
          let loop := set_last_error (error req) loop in
          emit (EvWriteCb f req (if is_UV_OK (code (last_error loop)) then 0 else -1)) loop
      | None => loop
      end in
    let h := set_write_reqs_pending (write_reqs_pending h - 1) h in
    Some (DECREASE_PENDING_REQ_COUNT h, loop).

(** [uv_process_file_read_req], lines 245-262.  [None] is the failure of
    the assertion of line 248, or a read of [req->bufs[0]] in an array
    that has no element.  The read callback takes the byte count as an
    [ssize_t]: the [DWORD] [bytes_transferred] is converted to that type
    by the call, and the event records what the callback receives. *)
Definition uv_process_file_read_req (h : uv_file_t) (req : uv_req)
    (query : option Z) (loop : uv_loop) : option (uv_file_t * uv_loop) :=
  if negb (is_UV_FILE (type h)) then None
  else
    let h := set_read_queue_size (read_queue_size h - queued_bytes req) h in
    let loop := emit (EvGetOverlappedResult (handle h) req) loop in
    let n := bytes_transferred query in
    let after_cb :=
      match cb req with
      | Some f =>
          match bufs req with
          | [] => None
          | b0 :: _ =>
              let loop := set_last_error (error req) loop in
              Some (emit (EvReadCb f req (to_ssize_t n) b0) loop)
          end
      | None => Some loop
      end in
    match after_cb with
    | None => None
    | Some loop =>
        let h := set_read_reqs_pending (read_reqs_pending h - 1) h in
        Some (DECREASE_PENDING_REQ_COUNT h, loop)
    end.

(** ** The handle in its loop

    A handle, the loop state and the requests the operating system has
    accepted and not yet reported as finished.  The caller submits reads
    and writes and asks for shutdown and close; the loop delivers each
    finished request once, in any order, and runs the endgame. *)

Record sys := mk_sys {
  s_file : uv_file_t;
  s_loop : uv_loop;
  s_inflight : list uv_req
}.

Inductive action :=
| ARead (req : uv_req) (offset : Z) (d : uv_offset_disposition)
        (bufs_ : list uv_buf_t) (bufcnt_ : Z) (cb_ : callback) (os : os_answer)
| AWrite (req : uv_req) (offset : Z) (d : uv_offset_disposition)
         (bufs_ : list uv_buf_t) (bufcnt_ : Z) (cb_ : callback) (os : os_answer)
| AComplete (i : nat) (err : uv_err_t) (query : option Z)
| AEndgame
| AShutdown
| AClose (cb_ : callback).

(** Modelled from the spec: [uv_shutdown] is defined outside [file.c]; a
    shutdown request moves an open handle to shutting and counts in
    [reqs_pending] as the shutdown's own virtual request, the one the
    graceful shutdown step takes off again.  On a handle that is already
    shutting it changes nothing. *)
Definition uv_shutdown (h : uv_file_t) : uv_file_t :=
  if has_flag (flags h) UV_HANDLE_SHUTTING then h
  else
    let h := set_flags (add_flag (flags h) UV_HANDLE_SHUTTING) h in
    set_reqs_pending (reqs_pending h + 1) h.

(** Modelled from the spec: [uv_close] is defined outside [file.c]; it
    arms closing and records the close callback, and leaves the teardown
    to the endgame.  On a handle that is already closing it changes
    nothing. *)
Definition uv_close (h : uv_file_t) (close_cb_ : callback) : uv_file_t :=
  if has_flag (flags h) UV_HANDLE_CLOSING then h
  else
    let h := set_flags (add_flag (flags h) UV_HANDLE_CLOSING) h in
    set_close_cb close_cb_ h.

Definition set_error (e : uv_err_t) (r : uv_req) : uv_req :=
  mk_req (req_type r) (req_handle r) (cb r) (bufs r) (bufcnt r)
         (Offset r) (OffsetHigh r) (queued_bytes r) e.

(** The list without its [i]-th element. *)
Definition remove_nth {A : Type} (i : nat) (l : list A) : list A :=
  firstn i l ++ skipn (S i) l.

(** Modelled from the spec: the dispatch of finished requests is part of
    the loop, outside [file.c]; the loop records the outcome of the
    operation in the request and hands it to the completion processor of
    its direction, once. *)
Definition deliver (r : uv_req) (err : uv_err_t) (query : option Z)
    (h : uv_file_t) (loop : uv_loop) : option (uv_file_t * uv_loop) :=
  match req_type r with
  | UV_READ => uv_process_file_read_req h (set_error err r) query loop
  | UV_WRITE => uv_process_file_write_req h (set_error err r) query loop
  | _ => None
  end.

(** One action on the system; [None] when the action cannot happen (no
    such request in flight) or the code stops (a failed assertion, a read
    outside an array). *)
Definition exec (a : action) (s : sys) : option sys :=
  match a with
  | ARead req offset d bufs_ bufcnt_ cb_ os =>
      match uv_file_read_offset req (s_file s) offset d bufs_ bufcnt_ cb_ os (s_loop s) with
      | Some (r, req', f', l') =>
          Some (mk_sys f' l' (if r =? 0 then s_inflight s ++ [req'] else s_inflight s))
      | None => None
      end
  | AWrite req offset d bufs_ bufcnt_ cb_ os =>
      match uv_file_write_offset req (s_file s) offset d bufs_ bufcnt_ cb_ os (s_loop s) with
      | Some (r, req', f', l') =>
          Some (mk_sys f' l' (if r =? 0 then s_inflight s ++ [req'] else s_inflight s))
      | None => None
      end
  | AComplete i err query =>
      match nth_error (s_inflight s) i with
      | Some r =>
          match deliver r err query (s_file s) (s_loop s) with
          | Some (f', l') => Some (mk_sys f' l' (remove_nth i (s_inflight s)))
          | None => None
          end
      | None => None
      end
  | AEndgame =>
      match uv_file_endgame (s_file s) (s_loop s) with
      | Some (f', l') => Some (mk_sys f' l' (s_inflight s))
      | None => None
      end
  | AShutdown => Some (mk_sys (uv_shutdown (s_file s)) (s_loop s) (s_inflight s))
  | AClose cb_ => Some (mk_sys (uv_close (s_file s) cb_) (s_loop s) (s_inflight s))
  end.

Fixpoint run (acts : list action) (s : sys) : option sys :=
  match acts with
  | [] => Some s
  | a :: acts' =>
      match exec a s with
      | Some s' => run acts' s'
      | None => None
      end
  end.

(** The system right after [uv_file_init] has succeeded on [h0]. *)
Definition fresh (pos : Z) (h0 : uv_file_t) (native : Z) (loop0 : uv_loop) : sys :=
  let '(_, h, loop) := uv_file_init (OsOk tt) (OsOk pos) h0 native loop0 in
  mk_sys h loop [].

Definition is_read (r : uv_req) : bool :=
  match req_type r with UV_READ => true | _ => false end.

Definition is_write (r : uv_req) : bool :=
  match req_type r with UV_WRITE => true | _ => false end.

(** The number of requests in [l] that satisfy [p]. *)
Definition count (p : uv_req -> bool) (l : list uv_req) : Z :=
  Z.of_nat (length (filter p l)).

(** The shutdown's own virtual request: counted from the shutdown request
    until the graceful shutdown step. *)
Definition virtual_req (h : uv_file_t) : Z :=
  if has_flag (flags h) UV_HANDLE_SHUTTING && negb (has_flag (flags h) UV_HANDLE_SHUT)
  then 1 else 0.

Definition is_close_cb (e : event) : bool :=
  match e with EvCloseCb _ _ => true | _ => false end.

(** How many times the close callback has been called. *)
Definition close_cb_calls (l : uv_loop) : Z :=
  Z.of_nat (length (filter is_close_cb (log l))).

(** ** Bursts of sequential submissions *)

Inductive direction := Read | Write.

(** A submission in either direction. *)
Definition submit (dir : direction) :=
  match dir with
  | Read => uv_file_read_offset
  | Write => uv_file_write_offset
  end.

(** The arguments of a [UV_CURRENT] submission of one buffer, and the
    answer the operating system gives to it. *)
Record submission := mk_submission {
  sub_dir : direction;
  sub_req : uv_req;
  sub_offset : Z;
  sub_buf : uv_buf_t;
  sub_cb : callback;
  sub_os : os_answer
}.

Definition submit_current (x : submission) (file : uv_file_t) (loop : uv_loop) :=
  submit (sub_dir x) (sub_req x) file (sub_offset x) UV_CURRENT
         [sub_buf x] 1 (sub_cb x) (sub_os x) loop.

(** The submissions [xs] one after the other, with no completion in
    between; the requests as the submissions leave them. *)
Fixpoint submit_all (xs : list submission) (file : uv_file_t) (loop : uv_loop)
    : option (list uv_req * uv_file_t * uv_loop) :=
  match xs with
  | [] => Some ([], file, loop)
  | x :: xs' =>
      match submit_current x file loop with
      | Some (_, r, file1, loop1) =>
          match submit_all xs' file1 loop1 with
          | Some (rs, file2, loop2) => Some (r :: rs, file2, loop2)
          | None => None
          end
      | None => None
      end
  end.

(** The absolute offset a populated request asks the operating system
    for. *)
Definition resolved (r : uv_req) : Z := Int.QuadPart (Offset r) (OffsetHigh r).

Definition buf_lens (xs : list submission) : list Z :=
  map (fun x => len (sub_buf x)) xs.

(** The event of the operating-system call of a submission. *)
Definition os_call (dir : direction) (file : uv_file_t) (r : uv_req) : event :=
  match dir with
  | Read => EvReadFile file r
  | Write => EvWriteFile file r
  end.

(** The five counters of a handle. *)
Definition counters (h : uv_file_t) : Z * Z * Z * Z * Z :=
  (reqs_pending h, read_reqs_pending h, write_reqs_pending h,
   read_queue_size h, write_queue_size h).

Definition dir_type (dir : direction) : uv_req_type :=
  match dir with Read => UV_READ | Write => UV_WRITE end.

Definition one_if (b : bool) : Z := if b then 1 else 0.

(** ** Invariants of the system *)

(** The pending counters count the requests in flight, and
    [reqs_pending] counts them all plus the virtual request of a shutdown
    that is under way. *)
Definition accounting (s : sys) : Prop :=
  let h := s_file s in
  read_reqs_pending h = count is_read (s_inflight s)
  /\ write_reqs_pending h = count is_write (s_inflight s)
  /\ reqs_pending h = read_reqs_pending h + write_reqs_pending h + virtual_req h
  /\ (has_flag (flags h) UV_HANDLE_SHUT = true ->
      has_flag (flags h) UV_HANDLE_SHUTTING = true).

Definition has_close_cb (h : uv_file_t) : bool :=
  match close_cb h with Some _ => true | None => false end.

(** The close callback has been called once if the handle is closed and
    has a close callback, and not at all otherwise. *)
Definition closed_once (s : sys) : Prop :=
  let h := s_file s in
  (has_flag (flags h) UV_HANDLE_CLOSED = true ->
   has_flag (flags h) UV_HANDLE_CLOSING = true)
  /\ close_cb_calls (s_loop s)
     = if has_flag (flags h) UV_HANDLE_CLOSED && has_close_cb h then 1 else 0.

(** ** Further measures of the system *)

(** The bytes the requests of [l] that satisfy [p] have queued. *)
Definition queued (p : uv_req -> bool) (l : list uv_req) : Z :=
  Int.sum (map queued_bytes (filter p l)).

(** The queue sizes of the handle are the bytes its requests in flight
    have queued, and a request in flight is a read or a write. *)
Definition queue_accounting (s : sys) : Prop :=
  read_queue_size (s_file s) = queued is_read (s_inflight s)
  /\ write_queue_size (s_file s) = queued is_write (s_inflight s)
  /\ forallb (fun r => is_read r || is_write r) (s_inflight s) = true.

(** The length [ReadFile] / [WriteFile] is called with: [bufs[0].len] of
    the request of the call. *)
Definition issued_len (e : event) : Z :=
  match e with
  | EvReadFile _ r | EvWriteFile _ r =>
      match bufs r with
      | b0 :: _ => len b0
      | [] => 0
      end
  | _ => 0
  end.

(** The bytes of all the reads and writes the log has asked the operating
    system for. *)
Definition issued_bytes (l : list event) : Z := Int.sum (map issued_len l).

Definition is_close_handle (e : event) : bool :=
  match e with EvCloseHandle _ => true | _ => false end.

(** The calls of [CloseHandle] in the log. *)
Definition close_handle_calls (l : uv_loop) : list event :=
  filter is_close_handle (log l).

(** Events of the completion processors. *)
Definition is_completion_event (e : event) : bool :=
  match e with
  | EvGetOverlappedResult _ _ | EvReadCb _ _ _ _ | EvWriteCb _ _ _ => true
  | _ => false
  end.

(** The life of the native handle and of the loop reference of a handle
    initialised on [native]: [closes0] are the calls of [CloseHandle]
    before, [refs0] the references the loop holds once the handle is
    initialised. *)
Definition lifecycle (native : Z) (closes0 : list event) (refs0 : Z) (s : sys) : Prop :=
  let h := s_file s in
  handle h = (if has_flag (flags h) UV_HANDLE_SHUT then INVALID_HANDLE_VALUE else native)
  /\ close_handle_calls (s_loop s)
     = closes0 ++ (if has_flag (flags h) UV_HANDLE_SHUT
                   then [EvCloseHandle native] else [])
  /\ refs (s_loop s) = refs0 - one_if (has_flag (flags h) UV_HANDLE_CLOSED).

Definition is_shutdown_request (a : action) : bool :=
  match a with AShutdown => true | _ => false end.

(** ** The callbacks of the test [test/test-file-io.c] *)

(** The static counters of the test, and the handles the callbacks have
    called [uv_close] on, latest first. *)
Record test_globals := mk_globals {
  close_called : Z;
  read_called : Z;
  write_called : Z;
  uv_close_calls : list (option Z)
}.

(** [after_close], lines 12-14. *)
Definition after_close (g : test_globals) : test_globals :=
  mk_globals (close_called g + 1) (read_called g) (write_called g) (uv_close_calls g).

(** [after_read], lines 16-24.  [None] is the failure of the [ASSERT], or
    a read of [req->bufs[0]] in an array that has no element.  The call of
    [free] is left out. *)
Definition after_read (g : test_globals) (req : uv_req) (nread : Z) (buf : uv_buf_t)
    : option test_globals :=
  if negb (nread =? len buf) then None
  else
    match bufs req with
    | [] => None
    | _ :: _ =>
        let g := mk_globals (close_called g) (read_called g + 1) (write_called g)
                            (uv_close_calls g) in
        if (read_called g =? 3) && (write_called g =? 2) then
          Some (mk_globals (close_called g) (read_called g) (write_called g)
                           (req_handle req :: uv_close_calls g))
        else Some g
    end.

(** [after_write], lines 26-34. *)
Definition after_write (g : test_globals) (req : uv_req) (status : Z)
    : option test_globals :=
  if negb (status =? 0) then None
  else
    match bufs req with
    | [] => None
    | _ :: _ =>
        let g := mk_globals (close_called g) (read_called g) (write_called g + 1)
                            (uv_close_calls g) in
        if (read_called g =? 3) && (write_called g =? 2) then
          Some (mk_globals (close_called g) (read_called g) (write_called g)
                           (req_handle req :: uv_close_calls g))
        else Some g
    end.

(** A call of one of the two completion callbacks of the test. *)
Inductive test_callback :=
| CbRead (req : uv_req) (nread : Z) (buf : uv_buf_t)
| CbWrite (req : uv_req) (status : Z).

Definition is_CbRead (c : test_callback) : bool :=
  match c with CbRead _ _ _ => true | CbWrite _ _ => false end.

Definition call_back (c : test_callback) (g : test_globals) : option test_globals :=
  match c with
  | CbRead req nread buf => after_read g req nread buf
  | CbWrite req status => after_write g req status
  end.

(** The callbacks [cs] called one after the other. *)
Fixpoint call_backs (cs : list test_callback) (g : test_globals) : option test_globals :=
  match cs with
  | [] => Some g
  | c :: cs' =>
      match call_back c g with
      | Some g' => call_backs cs' g'
      | None => None
      end
  end.

(** The counters as the test starts. *)
Definition test_start : test_globals := mk_globals 0 0 0 [].

(** ** Sample data

    Concrete values on which the model is run in the examples below. *)

(** A translation of error numbers. *)
Definition sample_translate (e : Z) : uv_err_code :=
  if e =? 0 then UV_OK else UV_EIO.

(** The memory of a handle before [uv_file_init], with arbitrary content. *)
(** The width of [ssize_t] on a 64-bit build. *)
Definition sample_bits : Z := 64.

Definition sample_h0 : uv_file_t :=
  mk_file UV_UNKNOWN_HANDLE 0 77 5 6 7 8 9 10 None.

Definition sample_loop0 : uv_loop := mk_loop uv_ok_ 0 0 [].

(** The handle and the loop after [uv_file_init] on the native handle 42
    of a file positioned at byte 100. *)
Definition sample_file : uv_file_t :=
  mk_file UV_FILE 42 UV_HANDLE_BOUND 0 0 0 0 0 100 None.

Definition sample_loop : uv_loop :=
  mk_loop uv_ok_ 1 1 [EvCreateIoCompletionPort 42; EvSetFilePointerEx 42].

(** The memory of a request before its submission. *)
Definition sample_req : uv_req := mk_req UV_UNKNOWN_REQ None None [] 0 0 0 0 uv_ok_.

Definition os_pending : os_answer := mk_answer false ERROR_IO_PENDING.
Definition os_done : os_answer := mk_answer true 0.
Definition os_failed : os_answer := mk_answer false 5.

(** A read of 10 bytes at the cursor, and a write of 20 bytes 5 bytes past
    the cursor. *)
Definition sub_a : submission := mk_submission Read sample_req 0 (mk_buf 0 10) None os_pending.
Definition sub_b : submission := mk_submission Write sample_req 5 (mk_buf 0 20) (Some 7%nat) os_pending.

(** A handle with a shutdown requested, no write pending and one read
    pending. *)
Definition sample_shutting : uv_file_t :=
  mk_file UV_FILE 42 (add_flag UV_HANDLE_BOUND UV_HANDLE_SHUTTING) 2 1 0 10 0 110 None.

(** A read request of 10 bytes in flight, with and without a callback. *)
Definition sample_read : uv_req :=
  mk_req UV_READ (Some 42) (Some 3%nat) [mk_buf 0 10] 1 100 0 10 uv_ok_.

Definition sample_read_no_cb : uv_req :=
  mk_req UV_READ (Some 42) None [mk_buf 0 10] 1 100 0 10 uv_ok_.

(** A pending read, a write that completes at once and a read that fails,
    then an endgame step and the completion of the write. *)
Definition sample_io : list action :=
  [ARead sample_req 0 UV_CURRENT [mk_buf 0 10] 1 None os_pending;
   AWrite sample_req 0 UV_START [mk_buf 0 20] 1 (Some 7%nat) os_done;
   ARead sample_req 0 UV_CURRENT [mk_buf 0 30] 1 None os_failed;
   AEndgame;
   AComplete 1 uv_ok_ (Some 20)].

(** A pending read, then shutdown and close requests; the endgame runs
    before and after the read finishes. *)
Definition sample_teardown : list action :=
  [ARead sample_req 0 UV_CURRENT [mk_buf 0 10] 1 None os_pending;
   AShutdown;
   AClose (Some 9%nat);
   AEndgame;
   AComplete 0 uv_ok_ (Some 10);
   AEndgame].

(** A write request of 20 bytes in flight. *)
Definition sample_write : uv_req :=
  mk_req UV_WRITE (Some 42) (Some 7%nat) [mk_buf 0 20] 1 0 0 20 uv_ok_.


(** Shutdown and close requests on an idle handle. *)
Definition sample_arm : list action := [AShutdown; AClose (Some 9%nat)].

(** A pending read, shutdown and close requests, an endgame step, then
    the completion of the read. *)
Definition sample_drain : list action :=
  [ARead sample_req 0 UV_CURRENT [mk_buf 0 10] 1 None os_pending;
   AShutdown;
   AClose (Some 9%nat);
   AEndgame;
   AComplete 0 uv_ok_ (Some 10)].

(** A handle with shutdown and close requested, nothing in flight and a
    close callback. *)
Definition sample_closing : uv_file_t :=
  mk_file UV_FILE 42
          (add_flag (add_flag UV_HANDLE_BOUND UV_HANDLE_SHUTTING) UV_HANDLE_CLOSING)
          1 0 0 0 0 110 (Some 9%nat).

(** Three reads and two writes completing, interleaved. *)
Definition sample_callbacks : list test_callback :=
  [CbRead sample_read 10 (mk_buf 0 10);
   CbWrite sample_write 0;
   CbRead sample_read 10 (mk_buf 0 10);
   CbWrite sample_write 0;
   CbRead sample_read 10 (mk_buf 0 10)].

(** * Properties *)

(** ** Machine integers *)

Lemma wrap64_range (z : Z) : Int.in_int64 (Int.wrap64 z).
Proof.
  unfold Int.in_int64, Int.wrap64, Int.half64, Int.mod64.
  pose proof (Z.mod_pos_bound (z + 9223372036854775808) 18446744073709551616).
  lia.
Qed.

Lemma wrap64_small (z : Z) : Int.in_int64 z -> Int.wrap64 z = z.
Proof.
  unfold Int.in_int64, Int.wrap64, Int.half64, Int.mod64. intros Hz.
  rewrite Z.mod_small by lia. lia.
Qed.

Lemma wrap64_idem (z : Z) : Int.wrap64 (Int.wrap64 z) = Int.wrap64 z.
Proof. apply wrap64_small, wrap64_range. Qed.

Lemma wrap64_add_l (a b : Z) : Int.wrap64 (Int.wrap64 a + b) = Int.wrap64 (a + b).
Proof.
  unfold Int.wrap64. f_equal.
  replace ((a + Int.half64) mod Int.mod64 - Int.half64 + b + Int.half64)
    with ((a + Int.half64) mod Int.mod64 + b) by lia.
  rewrite Zplus_mod_idemp_l. f_equal. lia.
Qed.

Lemma wrap64_mod (q : Z) : Int.wrap64 (q mod Int.mod64) = Int.wrap64 q.
Proof.
  unfold Int.wrap64. f_equal.
  rewrite Zplus_mod_idemp_l. reflexivity.
Qed.

(** The two [DWORD]s of an [OVERLAPPED] designate the offset they were
    taken from. *)
Lemma QuadPart_parts (q : Z) :
  Int.QuadPart (Int.LowPart q) (Int.HighPart q) = Int.wrap64 q.
Proof.
  unfold Int.QuadPart, Int.LowPart, Int.HighPart, Int.dword.
  rewrite <- (wrap64_mod q). f_equal.
  change Int.mod64 with (Int.mod32 * Int.mod32).
  rewrite Z.rem_mul_r; [reflexivity | discriminate | reflexivity].
Qed.

Lemma QuadPart_parts_wrapped (z : Z) :
  Int.QuadPart (Int.LowPart (Int.wrap64 z)) (Int.HighPart (Int.wrap64 z)) = Int.wrap64 z.
Proof. rewrite QuadPart_parts. apply wrap64_idem. Qed.

(** ** Flags *)

Lemma has_add_flag_same (f m : Z) : m <> 0 -> has_flag (add_flag f m) m = true.
Proof.
  intros Hm. unfold has_flag, add_flag.
  assert (E : Z.land (Z.lor f m) m = m).
  { apply Z.bits_inj'. intros n _.
    rewrite Z.land_spec, Z.lor_spec.
    destruct (Z.testbit f n), (Z.testbit m n); reflexivity. }
  rewrite E. apply negb_true_iff, Z.eqb_neq, Hm.
Qed.

Lemma has_add_flag_other (f m m' : Z) :
  Z.land m m' = 0 -> has_flag (add_flag f m) m' = has_flag f m'.
Proof.
  intros Hm. unfold has_flag, add_flag.
  now rewrite Z.land_lor_distr_l, Hm, Z.lor_0_r.
Qed.

Lemma has_add_flag_mono (f m m' : Z) :
  has_flag f m' = true -> has_flag (add_flag f m) m' = true.
Proof.
  unfold has_flag, add_flag. rewrite !negb_true_iff, !Z.eqb_neq.
  intros Hf E. rewrite Z.land_lor_distr_l in E.
  apply Z.lor_eq_0_iff in E. destruct E as [E _]. exact (Hf E).
Qed.

(** ** The endgame *)

Lemma shutdown_guard_true (h : uv_file_t) :
  shutdown_guard h = true <->
  has_flag (flags h) UV_HANDLE_SHUTTING = true
  /\ has_flag (flags h) UV_HANDLE_SHUT = false
  /\ write_reqs_pending h = 0.
Proof.
  unfold shutdown_guard.
  rewrite !andb_true_iff, negb_true_iff, Z.eqb_eq.
  split; [intros ((H1 & H2) & H3) | intros (H1 & H2 & H3)]; repeat split; assumption.
Qed.

Lemma shutdown_guard_false (h : uv_file_t) :
  shutdown_guard h = false <->
  has_flag (flags h) UV_HANDLE_SHUTTING = false
  \/ has_flag (flags h) UV_HANDLE_SHUT = true
  \/ write_reqs_pending h <> 0.
Proof.
  unfold shutdown_guard.
  rewrite !andb_false_iff, negb_false_iff, Z.eqb_neq.
  split; [intros [[H|H]|H] | intros [H|[H|H]]]; auto.
Qed.

(** What the graceful shutdown step does when it runs. *)
Lemma endgame_shutdown_runs (h : uv_file_t) (loop : uv_loop) :
  shutdown_guard h = true ->
  endgame_shutdown h loop =
    (mk_file (type h) INVALID_HANDLE_VALUE (add_flag (flags h) UV_HANDLE_SHUT)
             (reqs_pending h - 1) (read_reqs_pending h) (write_reqs_pending h)
             (read_queue_size h) (write_queue_size h) (file_pointer h) (close_cb h),
     emit (EvCloseHandle (handle h)) loop).
Proof. intros G. unfold endgame_shutdown. rewrite G. reflexivity. Qed.

Lemma endgame_shutdown_skips (h : uv_file_t) (loop : uv_loop) :
  shutdown_guard h = false -> endgame_shutdown h loop = (h, loop).
Proof. intros G. unfold endgame_shutdown. now rewrite G. Qed.

(** The two outcomes of the final teardown step that return. *)
Lemma endgame_close_cases (h h' : uv_file_t) (loop loop' : uv_loop) :
  endgame_close h loop = Some (h', loop') ->
  (close_guard h = false /\ h' = h /\ loop' = loop)
  \/ (close_guard h = true
      /\ has_flag (flags h) UV_HANDLE_CLOSED = false
      /\ h' = set_flags (add_flag (flags h) UV_HANDLE_CLOSED) h
      /\ loop' = uv_unref (match close_cb h with
                           | Some f => emit (EvCloseCb f h') loop
                           | None => loop
                           end)).
Proof.
  unfold endgame_close.
  destruct (close_guard h); [|intros [= <- <-]; now left].
  destruct (has_flag (flags h) UV_HANDLE_CLOSED); [discriminate|].
  intros [= <- <-]. right. repeat split; reflexivity.
Qed.

(** The final teardown step leaves the native handle and the counters
    alone, keeps every flag that is set, and only adds to the log. *)
Lemma endgame_close_keeps (h h' : uv_file_t) (loop loop' : uv_loop) :
  endgame_close h loop = Some (h', loop') ->
  handle h' = handle h
  /\ counters h' = counters h
  /\ file_pointer h' = file_pointer h
  /\ (forall m, has_flag (flags h) m = true -> has_flag (flags h') m = true)
  /\ (forall e, In e (log loop) -> In e (log loop')).
Proof.
  intros E. apply endgame_close_cases in E.
  destruct E as [(_ & -> & ->) | (_ & _ & -> & ->)].
  - repeat split; try reflexivity; intros x Hx; exact Hx.
  - repeat split; try reflexivity.
    + intros m. apply has_add_flag_mono.
    + intros e He. destruct (close_cb h); simpl; [apply in_or_app; left|]; exact He.
Qed.

(** C4: when the endgame runs with shutting set, shut clear and no write
    pending, the graceful shutdown step closes the native handle, stores
    the invalid sentinel in the handle, sets shut and takes exactly one
    off [reqs_pending], and so does [uv_file_endgame] whenever it returns;
    when the guard is false the step changes neither the handle nor the
    loop, and running the step a second time never changes anything. *)
Theorem graceful_shutdown_step (h : uv_file_t) (loop : uv_loop) :
  (has_flag (flags h) UV_HANDLE_SHUTTING = true ->
   has_flag (flags h) UV_HANDLE_SHUT = false ->
   write_reqs_pending h = 0 ->
   let h1 := fst (endgame_shutdown h loop) in
   let l1 := snd (endgame_shutdown h loop) in
   log l1 = log loop ++ [EvCloseHandle (handle h)]
   /\ handle h1 = INVALID_HANDLE_VALUE
   /\ flags h1 = add_flag (flags h) UV_HANDLE_SHUT
   /\ has_flag (flags h1) UV_HANDLE_SHUT = true
   /\ reqs_pending h1 = reqs_pending h - 1
   /\ (read_reqs_pending h1, write_reqs_pending h1) = (read_reqs_pending h, write_reqs_pending h)
   /\ forall h' l', uv_file_endgame h loop = Some (h', l') ->
        In (EvCloseHandle (handle h)) (log l')
        /\ handle h' = INVALID_HANDLE_VALUE
        /\ has_flag (flags h') UV_HANDLE_SHUT = true
        /\ reqs_pending h' = reqs_pending h - 1)
  /\ (has_flag (flags h) UV_HANDLE_SHUTTING = false
      \/ has_flag (flags h) UV_HANDLE_SHUT = true
      \/ write_reqs_pending h <> 0 ->
      endgame_shutdown h loop = (h, loop)
      /\ uv_file_endgame h loop = endgame_close h loop)
  /\ endgame_shutdown (fst (endgame_shutdown h loop)) (snd (endgame_shutdown h loop))
     = endgame_shutdown h loop.
Proof.
  split; [|split].
  - intros H1 H2 H3.
    assert (G : shutdown_guard h = true) by (apply shutdown_guard_true; auto).
    unfold uv_file_endgame. rewrite (endgame_shutdown_runs h loop G). simpl.
    assert (S : has_flag (add_flag (flags h) UV_HANDLE_SHUT) UV_HANDLE_SHUT = true)
      by (apply has_add_flag_same; discriminate).
    repeat split; auto.
    + apply endgame_close_keeps in H. destruct H as (_ & _ & _ & _ & Hl).
      apply Hl. simpl. apply in_or_app. right. now left.
    + apply endgame_close_keeps in H. destruct H as (Hh & _). exact Hh.
    + apply endgame_close_keeps in H. destruct H as (_ & _ & _ & Hf & _).
      apply Hf. exact S.
    + apply endgame_close_keeps in H. destruct H as (_ & Hc & _).
      unfold counters in Hc. simpl in Hc. congruence.
  - intros G. apply shutdown_guard_false in G.
    unfold uv_file_endgame. rewrite (endgame_shutdown_skips h loop G). auto.
  - destruct (shutdown_guard h) eqn:G.
    + rewrite (endgame_shutdown_runs h loop G). simpl.
      apply endgame_shutdown_skips, shutdown_guard_false. right. left. simpl.
      apply has_add_flag_same. discriminate.
    + rewrite (endgame_shutdown_skips h loop G). simpl.
      now apply endgame_shutdown_skips.
Qed.

(** C10: the guard of the graceful shutdown step does not look at the
    pending reads: with shutting set, shut clear, no write pending and
    reads pending, the step closes the native handle and stores the
    invalid sentinel while the reads stay counted as in flight; so does
    [uv_file_endgame], which returns unless the handle is closed already. *)
Theorem shutdown_ignores_pending_reads (h : uv_file_t) (loop : uv_loop) :
  has_flag (flags h) UV_HANDLE_SHUTTING = true ->
  has_flag (flags h) UV_HANDLE_SHUT = false ->
  write_reqs_pending h = 0 ->
  0 < read_reqs_pending h ->
  (let h1 := fst (endgame_shutdown h loop) in
   let l1 := snd (endgame_shutdown h loop) in
   log l1 = log loop ++ [EvCloseHandle (handle h)]
   /\ handle h1 = INVALID_HANDLE_VALUE
   /\ read_reqs_pending h1 = read_reqs_pending h)
  /\ (forall h' l', uv_file_endgame h loop = Some (h', l') ->
      In (EvCloseHandle (handle h)) (log l')
      /\ handle h' = INVALID_HANDLE_VALUE
      /\ 0 < read_reqs_pending h')
  /\ (has_flag (flags h) UV_HANDLE_CLOSED = false ->
      exists h' l', uv_file_endgame h loop = Some (h', l')).
Proof.
  intros H1 H2 H3 Hr.
  assert (G : shutdown_guard h = true) by (apply shutdown_guard_true; auto).
  unfold uv_file_endgame. rewrite (endgame_shutdown_runs h loop G). simpl.
  split; [auto|split].
  - intros h' l' E. apply endgame_close_keeps in E.
    destruct E as (Hh & Hc & _ & _ & Hl). unfold counters in Hc. simpl in *.
    split; [|split].
    + apply Hl, in_or_app. right. now left.
    + exact Hh.
    + replace (read_reqs_pending h') with (read_reqs_pending h) by congruence.
      exact Hr.
  - intros Hc. unfold endgame_close. simpl.
    rewrite (has_add_flag_other (flags h) UV_HANDLE_SHUT UV_HANDLE_CLOSED), Hc
      by reflexivity.
    destruct (close_guard _); eauto.
Qed.

(** ** Submission *)

Ltac submit_cases dir os :=
  destruct dir; destruct os as [[|] gle];
  unfold submit, uv_file_read_offset, uv_file_write_offset; simpl;
  try destruct (gle =? ERROR_IO_PENDING) eqn:?; simpl.

(** C5: a submission of one buffer with disposition [UV_START] asks the
    operating system for the requested offset as it is, with no validation
    (any offset a 64-bit signed integer holds); with [UV_CURRENT] for the
    logical cursor plus the requested offset (in 64-bit arithmetic);
    with [UV_END] every submission returns -1 with [UV_ENOTSUP] as last
    error and leaves request, handle and log as they were. *)
Theorem offset_resolution (dir : direction) (req : uv_req) (file : uv_file_t)
    (offset : Z) (b : uv_buf_t) (rest : list uv_buf_t) (cb_ : callback)
    (os : os_answer) (loop : uv_loop) :
  (exists ret r f l,
      submit dir req file offset UV_START (b :: rest) 1 cb_ os loop = Some (ret, r, f, l)
      /\ resolved r = Int.wrap64 offset
      /\ (Int.in_int64 offset -> resolved r = offset))
  /\ (exists ret r f l,
      submit dir req file offset UV_CURRENT (b :: rest) 1 cb_ os loop = Some (ret, r, f, l)
      /\ resolved r = Int.add64 (file_pointer file) offset
      /\ (Int.in_int64 (file_pointer file + offset) ->
          resolved r = file_pointer file + offset))
  /\ (forall bufs_ bufcnt_,
      submit dir req file offset UV_END bufs_ bufcnt_ cb_ os loop
      = Some (-1, req, file, uv_set_error UV_ENOTSUP 0 loop))
  /\ last_error (uv_set_error UV_ENOTSUP 0 loop) = mk_err UV_ENOTSUP 0
  /\ log (uv_set_error UV_ENOTSUP 0 loop) = log loop.
Proof.
  split; [|split; [|split; [|split; reflexivity]]].
  - assert (R : forall r, Offset r = Int.LowPart (Int.wrap64 offset) ->
                OffsetHigh r = Int.HighPart (Int.wrap64 offset) ->
                resolved r = Int.wrap64 offset
                /\ (Int.in_int64 offset -> resolved r = offset)).
    { intros r E1 E2. unfold resolved. rewrite E1, E2, QuadPart_parts_wrapped.
      split; [reflexivity | apply wrap64_small]. }
    submit_cases dir os; do 4 eexists; (split; [reflexivity | apply R; reflexivity]).
  - assert (R : forall r, Offset r = Int.LowPart (Int.add64 (file_pointer file) offset) ->
                OffsetHigh r = Int.HighPart (Int.add64 (file_pointer file) offset) ->
                resolved r = Int.add64 (file_pointer file) offset
                /\ (Int.in_int64 (file_pointer file + offset) ->
                    resolved r = file_pointer file + offset)).
    { intros r E1 E2. unfold resolved, Int.add64 in *.
      rewrite E1, E2, QuadPart_parts_wrapped.
      split; [reflexivity | apply wrap64_small]. }
    submit_cases dir os; do 4 eexists; (split; [reflexivity | apply R; reflexivity]).
  - intros bufs_ bufcnt_.
    destruct dir; simpl; unfold uv_file_read_offset, uv_file_write_offset;
      destruct (bufcnt_ =? 1); reflexivity.
Qed.

Lemma submit_rejects (dir : direction) (req : uv_req) (file : uv_file_t)
    (offset : Z) (d : uv_offset_disposition) (bufs_ : list uv_buf_t)
    (bufcnt_ : Z) (cb_ : callback) (os : os_answer) (loop : uv_loop) :
  bufcnt_ <> 1 ->
  submit dir req file offset d bufs_ bufcnt_ cb_ os loop
  = Some (-1, req, file, uv_set_error UV_ENOTSUP 0 loop).
Proof.
  intros Hn. apply Z.eqb_neq in Hn.
  destruct dir; simpl; unfold uv_file_read_offset, uv_file_write_offset;
    rewrite Hn; reflexivity.
Qed.

(** C6: a read or write submission whose buffer count is 0 or at least 2
    returns -1 with [UV_ENOTSUP] as last error; the handle (cursor, pending
    counters, queue sizes and all the rest), the request and the log are
    as before the call. *)
Theorem single_buffer_enforcement (dir : direction) (req : uv_req)
    (file : uv_file_t) (offset : Z) (d : uv_offset_disposition)
    (bufs_ : list uv_buf_t) (bufcnt_ : Z) (cb_ : callback) (os : os_answer)
    (loop : uv_loop) :
  bufcnt_ = 0 \/ 2 <= bufcnt_ ->
  exists r f l,
    submit dir req file offset d bufs_ bufcnt_ cb_ os loop = Some (-1, r, f, l)
    /\ code (last_error l) = UV_ENOTSUP
    /\ file_pointer f = file_pointer file
    /\ counters f = counters file
    /\ f = file
    /\ r = req
    /\ log l = log loop.
Proof.
  intros Hn. exists req, file, (uv_set_error UV_ENOTSUP 0 loop).
  rewrite submit_rejects by lia. repeat split.
Qed.

(** C7: when [ReadFile] / [WriteFile] fails and the error is not
    [ERROR_IO_PENDING], the submission returns -1 with the translated
    system error as last error; the pending counters and the queue sizes
    are as before the call, and the logical cursor stays advanced by the
    length of the buffer. *)
Theorem hard_failure_asymmetry (dir : direction) (req : uv_req)
    (file : uv_file_t) (offset : Z) (d : uv_offset_disposition)
    (b : uv_buf_t) (rest : list uv_buf_t) (cb_ : callback) (os : os_answer)
    (loop : uv_loop) :
  d <> UV_END ->
  result os = false ->
  GetLastError os <> ERROR_IO_PENDING ->
  exists r f l,
    submit dir req file offset d (b :: rest) 1 cb_ os loop = Some (-1, r, f, l)
    /\ last_error l = mk_err (uv_translate_sys_error (GetLastError os)) (GetLastError os)
    /\ counters f = counters file
    /\ file_pointer f = Int.add64 (file_pointer file) (len b).
Proof.
  intros Hd Hr Hg. apply Z.eqb_neq in Hg.
  destruct os as [res gle]. simpl in Hr, Hg. subst res.
  destruct dir, d; try congruence;
    unfold submit, uv_file_read_offset, uv_file_write_offset; simpl;
    rewrite Hg; simpl; do 3 eexists; repeat split.
Qed.

(** ** Completion *)

Lemma sentinel_bits (i : Z) : 0 <= i < 32 -> Z.testbit 4294967295 i = true.
Proof. intros Hi. change 4294967295 with (Z.ones 32). apply Z.ones_spec_low, Hi. Qed.

(** C8: when [GetOverlappedResult] fails, the transferred byte count is
    the [DWORD] with all bits set, [(DWORD)-1], and the read completion
    passes it to the read callback, where it is converted to [ssize_t].
    Where [ssize_t] has 32 bits the callback receives -1.  Where it has 64
    bits the callback receives 4294967295, a positive byte count and the
    same argument a query that succeeds with 4294967295 bytes gives: the
    sentinel -1 the assignment of line 252 aims at is not delivered.  The
    query reaches nothing else (the last error is the one of the request),
    and the write completion, whose callback takes a status only, is the
    same whatever the query answers. *)
Theorem completion_query_sentinel (h : uv_file_t) (req : uv_req) (loop : uv_loop)
    (f : nat) (b : uv_buf_t) (rest : list uv_buf_t) :
  type h = UV_FILE ->
  cb req = Some f ->
  bufs req = b :: rest ->
  bytes_transferred None = 2 ^ 32 - 1
  /\ (forall i, 0 <= i < 32 -> Z.testbit (bytes_transferred None) i = true)
  /\ (exists h' l',
        uv_process_file_read_req h req None loop = Some (h', l')
        /\ log l' = log loop ++ [EvGetOverlappedResult (handle h) req;
                                 EvReadCb f req (to_ssize_t (bytes_transferred None)) b]
        /\ last_error l' = error req)
  /\ (ssize_t_bits = 32 -> to_ssize_t (bytes_transferred None) = -1)
  /\ (ssize_t_bits = 64 ->
      to_ssize_t (bytes_transferred None) = 4294967295
      /\ to_ssize_t (bytes_transferred None) <> -1
      /\ uv_process_file_read_req h req None loop
         = uv_process_file_read_req h req (Some 4294967295) loop)
  /\ (forall n, uv_process_file_write_req h req None loop
                = uv_process_file_write_req h req (Some n) loop).
Proof.
  intros Ht Hc Hb.
  split; [reflexivity|]. split; [exact sentinel_bits|]. split; [|split; [|split]].
  - destruct h. simpl in Ht. subst.
    unfold uv_process_file_read_req.
    rewrite Hc, Hb. simpl. do 2 eexists. split; [reflexivity|].
    simpl. rewrite <- app_assoc. simpl. split; reflexivity.
  - intros E. unfold to_ssize_t. rewrite E. reflexivity.
  - intros E. unfold to_ssize_t. rewrite E.
    split; [reflexivity|]. split; [discriminate | reflexivity].
  - intros n. reflexivity.
Qed.

(** C9: a finished request whose callback is null is processed like any
    other: the queue size of its direction goes down by its
    [queued_bytes], the pending counter of its direction and
    [reqs_pending] go down by one; no callback is called (the log gets the
    query alone and the last error is not touched).  With a callback the
    handle ends the same and the callback is called once. *)
Theorem null_callback_tolerated (h : uv_file_t) (req : uv_req)
    (query : option Z) (loop : uv_loop) :
  type h = UV_FILE ->
  (cb req = None ->
   uv_process_file_read_req h req query loop =
     Some (mk_file (type h) (handle h) (flags h) (reqs_pending h - 1)
                   (read_reqs_pending h - 1) (write_reqs_pending h)
                   (read_queue_size h - queued_bytes req) (write_queue_size h)
                   (file_pointer h) (close_cb h),
           emit (EvGetOverlappedResult (handle h) req) loop)
   /\ uv_process_file_write_req h req query loop =
     Some (mk_file (type h) (handle h) (flags h) (reqs_pending h - 1)
                   (read_reqs_pending h) (write_reqs_pending h - 1)
                   (read_queue_size h) (write_queue_size h - queued_bytes req)
                   (file_pointer h) (close_cb h),
           emit (EvGetOverlappedResult (handle h) req) loop))
  /\ (forall f b rest, cb req = Some f -> bufs req = b :: rest ->
      uv_process_file_read_req h req query loop =
        Some (mk_file (type h) (handle h) (flags h) (reqs_pending h - 1)
                      (read_reqs_pending h - 1) (write_reqs_pending h)
                      (read_queue_size h - queued_bytes req) (write_queue_size h)
                      (file_pointer h) (close_cb h),
              emit (EvReadCb f req (to_ssize_t (bytes_transferred query)) b)
                (set_last_error (error req)
                   (emit (EvGetOverlappedResult (handle h) req) loop))))
  /\ (forall f, cb req = Some f ->
      uv_process_file_write_req h req query loop =
        Some (mk_file (type h) (handle h) (flags h) (reqs_pending h - 1)
                      (read_reqs_pending h) (write_reqs_pending h - 1)
                      (read_queue_size h) (write_queue_size h - queued_bytes req)
                      (file_pointer h) (close_cb h),
              emit (EvWriteCb f req (if is_UV_OK (code (error req)) then 0 else -1))
                (set_last_error (error req)
                   (emit (EvGetOverlappedResult (handle h) req) loop)))).
Proof.
  intros Ht. destruct h. simpl in Ht. subst. split; [|split].
  - intros Hc. unfold uv_process_file_read_req, uv_process_file_write_req.
    rewrite Hc. split; reflexivity.
  - intros f b rest Hc Hb. unfold uv_process_file_read_req.
    rewrite Hc, Hb. reflexivity.
  - intros f Hc. unfold uv_process_file_write_req.
    rewrite Hc. reflexivity.
Qed.

(** ** Cursor reservation *)

Lemma wrap64_shift (c n m : Z) :
  Int.wrap64 (Int.wrap64 (c + n) + m) = Int.wrap64 (c + (n + m)).
Proof. rewrite wrap64_add_l. f_equal. lia. Qed.

(** One [UV_CURRENT] submission of one buffer: it returns; the request
    asks for the cursor plus the requested offset; the handle the
    operating-system call sees has the cursor past the buffer already,
    and that is the cursor the submission leaves, whatever the answer. *)
Lemma submit_current_spec (x : submission) (file : uv_file_t) (loop : uv_loop) :
  exists ret r f l fc rc,
    submit_current x file loop = Some (ret, r, f, l)
    /\ log l = log loop ++ [os_call (sub_dir x) fc rc]
    /\ file_pointer f = Int.add64 (file_pointer file) (len (sub_buf x))
    /\ file_pointer fc = file_pointer f
    /\ resolved r = Int.add64 (file_pointer file) (sub_offset x)
    /\ resolved rc = resolved r.
Proof.
  destruct x as [dir req offset b cb_ os]. unfold submit_current. simpl.
  assert (R : forall r, Offset r = Int.LowPart (Int.add64 (file_pointer file) offset) ->
              OffsetHigh r = Int.HighPart (Int.add64 (file_pointer file) offset) ->
              resolved r = Int.add64 (file_pointer file) offset).
  { intros r E1 E2. unfold resolved, Int.add64 in *.
    rewrite E1, E2. apply QuadPart_parts_wrapped. }
  submit_cases dir os; do 6 eexists;
    (split; [reflexivity|]); (split; [reflexivity|]);
    (split; [reflexivity|]); (split; [reflexivity|]);
    (split; [apply R; reflexivity|]);
    unfold resolved; reflexivity.
Qed.

(** A burst of [UV_CURRENT] submissions: requests, log and cursor. *)
Lemma submit_all_spec (xs : list submission) :
  forall (file : uv_file_t) (loop : uv_loop),
  exists rs file' loop' calls,
    submit_all xs file loop = Some (rs, file', loop')
    /\ log loop' = log loop ++ calls
    /\ Int.wrap64 (file_pointer file')
       = Int.wrap64 (file_pointer file + Int.sum (buf_lens xs))
    /\ (Int.in_int64 (file_pointer file) -> Int.in_int64 (file_pointer file'))
    /\ forall i x, nth_error xs i = Some x ->
         exists r fc rc,
           nth_error rs i = Some r
           /\ nth_error calls i = Some (os_call (sub_dir x) fc rc)
           /\ resolved r
              = Int.wrap64 (file_pointer file + Int.sum (firstn i (buf_lens xs))
                            + sub_offset x)
           /\ resolved rc = resolved r
           /\ file_pointer fc
              = Int.wrap64 (file_pointer file + Int.sum (firstn (S i) (buf_lens xs))).
Proof.
  induction xs as [|x xs IH]; intros file loop.
  - exists [], file, loop, []. simpl. rewrite app_nil_r, Z.add_0_r.
    do 3 (split; [reflexivity|]). split; [auto|].
    intros [|i] y; discriminate.
  - destruct (submit_current_spec x file loop)
      as (ret & r & f1 & l1 & fc & rc & E & Hl & Hf & Hfc & Hr & Hrc).
    destruct (IH f1 l1) as (rs & file' & loop' & calls & E' & Hl' & Hc' & Hin & Hn).
    exists (r :: rs), file', loop', (os_call (sub_dir x) fc rc :: calls).
    simpl. rewrite E, E'. split; [reflexivity|].
    split; [rewrite Hl', Hl, <- app_assoc; reflexivity|].
    split; [rewrite Hc', Hf; apply wrap64_shift|].
    split.
    { intros _. apply Hin. rewrite Hf. apply wrap64_range. }
    intros [|i] y Hy; simpl in Hy.
    + injection Hy as <-. exists r, fc, rc. simpl.
      repeat split; auto.
      * rewrite Hr. unfold Int.add64. f_equal. lia.
      * rewrite Hfc, Hf. unfold Int.add64. f_equal. lia.
    + destruct (Hn i y Hy) as (r' & fc' & rc' & N1 & N2 & R1 & R2 & R3).
      exists r', fc', rc'. simpl. repeat split; auto.
      * rewrite R1, Hf. unfold Int.add64.
        rewrite <- Z.add_assoc, wrap64_shift. f_equal. lia.
      * rewrite R3, Hf. unfold Int.add64. simpl.
        rewrite wrap64_shift. reflexivity.
Qed.

(** A completion leaves the logical cursor where it is. *)
Lemma deliver_keeps_cursor (r : uv_req) (err : uv_err_t) (query : option Z)
    (h h' : uv_file_t) (loop loop' : uv_loop) :
  deliver r err query h loop = Some (h', loop') ->
  file_pointer h' = file_pointer h.
Proof.
  unfold deliver, uv_process_file_read_req, uv_process_file_write_req.
  destruct (req_type r); try discriminate;
    destruct (is_UV_FILE (type h)); simpl; try discriminate.
  - destruct (cb r); [destruct (bufs r)|]; simpl; try discriminate;
      intros [= <- _]; reflexivity.
  - intros [= <- _]. reflexivity.
Qed.

(** [uv_file_read] and [uv_file_write] are [UV_CURRENT] submissions with
    the requested offset 0. *)
Lemma uv_file_read_write_current (req : uv_req) (file : uv_file_t) (b : uv_buf_t)
    (cb_ : callback) (os : os_answer) (loop : uv_loop) :
  uv_file_read req file [b] 1 cb_ os loop
  = submit_current (mk_submission Read req 0 b cb_ os) file loop
  /\ uv_file_write req file [b] 1 cb_ os loop
    = submit_current (mk_submission Write req 0 b cb_ os) file loop.
Proof. split; reflexivity. Qed.

Lemma sum_firstn_S (l : list Z) :
  forall i a, nth_error l i = Some a ->
    Int.sum (firstn (S i) l) = Int.sum (firstn i l) + a.
Proof.
  induction l as [|y l IH]; intros [|i] a Hi; simpl in Hi; try discriminate.
  - injection Hi as ->. simpl. lia.
  - change (y + Int.sum (firstn (S i) l) = y + Int.sum (firstn i l) + a).
    rewrite (IH i a Hi). lia.
Qed.

(** C1, as the code has it: in a burst of [UV_CURRENT] submissions of one
    buffer each on one handle, with no completion in between, every
    submission returns, and the offset the i-th request asks for is the
    initial cursor plus the lengths of the buffers of the submissions
    before it plus its own requested offset, in 64-bit arithmetic (so for
    the requested offset 0 of [uv_file_read] and [uv_file_write], and as
    long as the sum fits, the cursor plus the prefix sum).  The handle
    each operating-system call sees has its cursor past the submission's
    buffer already, and the burst leaves the cursor at the initial one
    plus all the lengths, whatever the operating system answers.  A
    completion, delivered in whatever order, does not move the cursor. *)
Theorem cursor_reservation (xs : list submission) (file : uv_file_t) (loop : uv_loop) :
  Int.in_int64 (file_pointer file) ->
  (exists rs file' loop' calls,
      submit_all xs file loop = Some (rs, file', loop')
      /\ log loop' = log loop ++ calls
      /\ file_pointer file' = Int.wrap64 (file_pointer file + Int.sum (buf_lens xs))
      /\ forall i x, nth_error xs i = Some x ->
           exists r fc rc,
             nth_error rs i = Some r
             /\ nth_error calls i = Some (os_call (sub_dir x) fc rc)
             /\ resolved rc = resolved r
             /\ resolved r
                = Int.wrap64 (file_pointer file + Int.sum (firstn i (buf_lens xs))
                              + sub_offset x)
             /\ (sub_offset x = 0 ->
                 Int.in_int64 (file_pointer file + Int.sum (firstn i (buf_lens xs))) ->
                 resolved r = file_pointer file + Int.sum (firstn i (buf_lens xs)))
             /\ file_pointer fc
                = Int.wrap64 (file_pointer file + Int.sum (firstn i (buf_lens xs))
                              + len (sub_buf x)))
  /\ (forall r err query h l h' l',
        deliver r err query h l = Some (h', l') -> file_pointer h' = file_pointer h).
Proof.
  intros Hc. split; [|intros; eapply deliver_keeps_cursor; eauto].
  destruct (submit_all_spec xs file loop)
    as (rs & file' & loop' & calls & E & Hl & Hf & Hin & Hn).
  exists rs, file', loop', calls.
  split; [exact E|]. split; [exact Hl|].
  split; [rewrite <- Hf; symmetry; apply wrap64_small; auto|].
  intros i x Hx. destruct (Hn i x Hx) as (r & fc & rc & N1 & N2 & R1 & R2 & R3).
  exists r, fc, rc.
  split; [exact N1|]. split; [exact N2|]. split; [exact R2|].
  split; [exact R1|]. split.
  - intros H0 Hfit. rewrite R1, H0, Z.add_0_r. apply wrap64_small, Hfit.
  - rewrite R3. f_equal.
    rewrite (sum_firstn_S (buf_lens xs) i (len (sub_buf x))); [lia|].
    unfold buf_lens. rewrite nth_error_map, Hx. reflexivity.
Qed.

(** ** The system: what each action does to counters, flags and log *)

Lemma close_cb_calls_emit (e : event) (l : uv_loop) :
  close_cb_calls (emit e l) = close_cb_calls l + (if is_close_cb e then 1 else 0).
Proof.
  unfold close_cb_calls, emit. simpl. rewrite filter_app, length_app. simpl.
  destruct (is_close_cb e); simpl; lia.
Qed.

Lemma close_cb_calls_set_last_error (e : uv_err_t) (l : uv_loop) :
  close_cb_calls (set_last_error e l) = close_cb_calls l.
Proof. reflexivity. Qed.

Lemma submit_effect (dir : direction) (req : uv_req) (file : uv_file_t)
    (offset : Z) (d : uv_offset_disposition) (bufs_ : list uv_buf_t)
    (bufcnt_ : Z) (cb_ : callback) (os : os_answer) (loop : uv_loop)
    (ret : Z) (r : uv_req) (f : uv_file_t) (l : uv_loop) :
  submit dir req file offset d bufs_ bufcnt_ cb_ os loop = Some (ret, r, f, l) ->
  flags f = flags file
  /\ close_cb f = close_cb file
  /\ close_cb_calls l = close_cb_calls loop
  /\ ((ret = 0 /\ req_type r = dir_type dir
       /\ reqs_pending f = reqs_pending file + 1
       /\ read_reqs_pending f = read_reqs_pending file + one_if (is_read r)
       /\ write_reqs_pending f = write_reqs_pending file + one_if (is_write r))
      \/ (ret = -1
          /\ reqs_pending f = reqs_pending file
          /\ read_reqs_pending f = read_reqs_pending file
          /\ write_reqs_pending f = write_reqs_pending file)).
Proof.
  assert (C : forall e, is_close_cb e = false ->
              close_cb_calls (emit e loop) = close_cb_calls loop).
  { intros e He. rewrite close_cb_calls_emit, He. lia. }
  destruct dir; simpl; unfold uv_file_read_offset, uv_file_write_offset;
    (destruct (bufcnt_ =? 1); simpl;
     [|intros [= <- <- <- <-]; repeat (split; [reflexivity|]); right; repeat split]);
    (destruct (true_offset offset d (file_pointer file)); simpl;
     [|intros [= <- <- <- <-]; repeat (split; [reflexivity|]); right; repeat split]);
    (destruct bufs_ as [|b0 rest]; [discriminate|]);
    destruct (result os); simpl;
    try destruct (GetLastError os =? ERROR_IO_PENDING); simpl;
    intros [= <- <- <- <-]; simpl;
    (split; [reflexivity|]); (split; [reflexivity|]);
    (split; [apply C; reflexivity|]);
    first [left; repeat split; unfold is_read, is_write, one_if; simpl; lia
          |right; repeat split].
Qed.

Lemma deliver_effect (r : uv_req) (err : uv_err_t) (query : option Z)
    (h h' : uv_file_t) (loop loop' : uv_loop) :
  deliver r err query h loop = Some (h', loop') ->
  flags h' = flags h
  /\ close_cb h' = close_cb h
  /\ close_cb_calls loop' = close_cb_calls loop
  /\ reqs_pending h' = reqs_pending h - 1
  /\ read_reqs_pending h' = read_reqs_pending h - one_if (is_read r)
  /\ write_reqs_pending h' = write_reqs_pending h - one_if (is_write r)
  /\ one_if (is_read r) + one_if (is_write r) = 1.
Proof.
  unfold deliver, uv_process_file_read_req, uv_process_file_write_req,
    is_read, is_write.
  destruct (req_type r); try discriminate;
    destruct (is_UV_FILE (type h)); simpl; try discriminate.
  - destruct (cb r); [destruct (bufs r)|]; simpl; try discriminate;
      intros [= <- <-]; simpl;
      rewrite ?close_cb_calls_emit, ?close_cb_calls_set_last_error,
        ?close_cb_calls_emit; simpl;
      repeat split; lia.
  - destruct (cb r); intros [= <- <-]; simpl;
      rewrite ?close_cb_calls_emit, ?close_cb_calls_set_last_error,
        ?close_cb_calls_emit; simpl;
      repeat split; lia.
Qed.

Ltac flag_simp :=
  repeat first
    [ rewrite has_add_flag_same by discriminate
    | rewrite has_add_flag_other by reflexivity ].

Lemma count_nonneg (p : uv_req -> bool) (l : list uv_req) : 0 <= count p l.
Proof. unfold count. lia. Qed.

Lemma count_snoc (p : uv_req -> bool) (l : list uv_req) (r : uv_req) :
  count p (l ++ [r]) = count p l + one_if (p r).
Proof.
  unfold count, one_if. rewrite filter_app, length_app. simpl.
  destruct (p r); simpl; lia.
Qed.

Lemma count_remove_nth (p : uv_req -> bool) (l : list uv_req) :
  forall i r, nth_error l i = Some r ->
    count p (remove_nth i l) = count p l - one_if (p r).
Proof.
  unfold count, one_if, remove_nth.
  induction l as [|y l IH]; intros [|i] r Hi; simpl in Hi; try discriminate.
  - injection Hi as ->. cbn -[Z.of_nat]. destruct (p r); cbn -[Z.of_nat]; lia.
  - specialize (IH i r Hi). cbn -[Z.of_nat] in *.
    destruct (p y); cbn -[Z.of_nat]; destruct (p r); lia.
Qed.

Lemma virtual_req_flags (h h' : uv_file_t) :
  flags h' = flags h -> virtual_req h' = virtual_req h.
Proof. unfold virtual_req. now intros ->. Qed.

Lemma virtual_req_range (h : uv_file_t) : 0 <= virtual_req h <= 1.
Proof. unfold virtual_req. destruct (_ && _); lia. Qed.

(** The graceful shutdown step takes the virtual request off
    [reqs_pending] when it marks the shutdown as done. *)
Lemma endgame_shutdown_effect (h h1 : uv_file_t) (l l1 : uv_loop) :
  endgame_shutdown h l = (h1, l1) ->
  read_reqs_pending h1 = read_reqs_pending h
  /\ write_reqs_pending h1 = write_reqs_pending h
  /\ reqs_pending h1 - virtual_req h1 = reqs_pending h - virtual_req h
  /\ close_cb h1 = close_cb h
  /\ close_cb_calls l1 = close_cb_calls l
  /\ has_flag (flags h1) UV_HANDLE_CLOSING = has_flag (flags h) UV_HANDLE_CLOSING
  /\ has_flag (flags h1) UV_HANDLE_CLOSED = has_flag (flags h) UV_HANDLE_CLOSED
  /\ has_flag (flags h1) UV_HANDLE_SHUTTING = has_flag (flags h) UV_HANDLE_SHUTTING
  /\ (has_flag (flags h) UV_HANDLE_SHUT = true -> has_flag (flags h1) UV_HANDLE_SHUT = true)
  /\ (has_flag (flags h1) UV_HANDLE_SHUT = true ->
      has_flag (flags h) UV_HANDLE_SHUT = true \/ shutdown_guard h = true).
Proof.
  destruct (shutdown_guard h) eqn:G.
  - rewrite (endgame_shutdown_runs h l G). intros [= <- <-].
    apply shutdown_guard_true in G. destruct G as (G1 & G2 & G3).
    unfold virtual_req. simpl. flag_simp. rewrite G1, G2. simpl.
    rewrite close_cb_calls_emit. simpl.
    repeat split; auto; lia.
  - rewrite (endgame_shutdown_skips h l G). intros [= <- <-].
    repeat split; auto.
Qed.

Lemma endgame_close_effect (h h' : uv_file_t) (l l' : uv_loop) :
  endgame_close h l = Some (h', l') ->
  counters h' = counters h
  /\ close_cb h' = close_cb h
  /\ has_flag (flags h') UV_HANDLE_SHUTTING = has_flag (flags h) UV_HANDLE_SHUTTING
  /\ has_flag (flags h') UV_HANDLE_SHUT = has_flag (flags h) UV_HANDLE_SHUT
  /\ has_flag (flags h') UV_HANDLE_CLOSING = has_flag (flags h) UV_HANDLE_CLOSING
  /\ ((h' = h /\ l' = l /\ close_guard h = false)
      \/ (close_guard h = true
          /\ has_flag (flags h) UV_HANDLE_CLOSED = false
          /\ has_flag (flags h') UV_HANDLE_CLOSED = true
          /\ close_cb_calls l' = close_cb_calls l + one_if (has_close_cb h)
          /\ refs l' = refs l - 1)).
Proof.
  intros E. apply endgame_close_cases in E.
  destruct E as [(G & -> & ->) | (G & C & -> & ->)].
  - repeat split; auto.
  - simpl. flag_simp. repeat split; auto. right. repeat split; auto.
    + unfold has_close_cb. destruct (close_cb h); simpl.
      * unfold uv_unref, close_cb_calls. simpl.
        rewrite filter_app, length_app. simpl. lia.
      * unfold uv_unref, close_cb_calls. simpl. lia.
    + destruct (close_cb h); reflexivity.
Qed.

Lemma submitted_accounting (dir : direction) (s : sys) (ret : Z) (r : uv_req)
    (f : uv_file_t) (l : uv_loop) req offset d bufs_ bufcnt_ cb_ os :
  accounting s ->
  submit dir req (s_file s) offset d bufs_ bufcnt_ cb_ os (s_loop s)
    = Some (ret, r, f, l) ->
  accounting (mk_sys f l (if ret =? 0 then s_inflight s ++ [r] else s_inflight s)).
Proof.
  intros (A1 & A2 & A3 & A4) E. apply submit_effect in E.
  destruct E as (Hfl & _ & _ & [(-> & Ht & H1 & H2 & H3) | (-> & H1 & H2 & H3)]);
    unfold accounting; simpl; rewrite ?count_snoc, (virtual_req_flags _ _ Hfl), Hfl.
  - assert (one_if (is_read r) + one_if (is_write r) = 1)
      by (unfold is_read, is_write; rewrite Ht; destruct dir; reflexivity).
    repeat split; auto; lia.
  - repeat split; auto; lia.
Qed.

Lemma submitted_closed_once (dir : direction) (s : sys) (ret : Z) (r : uv_req)
    (f : uv_file_t) (l : uv_loop) (rs : list uv_req) req offset d bufs_ bufcnt_ cb_ os :
  closed_once s ->
  submit dir req (s_file s) offset d bufs_ bufcnt_ cb_ os (s_loop s)
    = Some (ret, r, f, l) ->
  closed_once (mk_sys f l rs).
Proof.
  intros (C1 & C2) E. apply submit_effect in E.
  destruct E as (Hfl & Hcb & Hc & _).
  unfold closed_once, has_close_cb in *. simpl. rewrite Hfl, Hcb, Hc. auto.
Qed.

(** Every action keeps the accounting. *)
Lemma exec_accounting (a : action) (s s' : sys) :
  accounting s -> exec a s = Some s' -> accounting s'.
Proof.
  intros A. destruct a; simpl.
  - destruct (uv_file_read_offset _ _ _ _ _ _ _ _ _) as [[[[ret r] f] l]|] eqn:E;
      [|discriminate].
    intros [= <-]. eapply (submitted_accounting Read); eauto.
  - destruct (uv_file_write_offset _ _ _ _ _ _ _ _ _) as [[[[ret r] f] l]|] eqn:E;
      [|discriminate].
    intros [= <-]. eapply (submitted_accounting Write); eauto.
  - destruct (nth_error (s_inflight s) i) as [r|] eqn:N; [|discriminate].
    destruct (deliver r err query (s_file s) (s_loop s)) as [[f l]|] eqn:E;
      [|discriminate].
    intros [= <-]. apply deliver_effect in E.
    destruct E as (Hfl & _ & _ & H1 & H2 & H3 & H4).
    destruct A as (A1 & A2 & A3 & A4).
    unfold accounting; simpl.
    rewrite !(count_remove_nth _ _ _ _ N), (virtual_req_flags _ _ Hfl), Hfl.
    repeat split; auto; lia.
  - unfold uv_file_endgame.
    destruct (endgame_shutdown (s_file s) (s_loop s)) as [h1 l1] eqn:E1.
    destruct (endgame_close h1 l1) as [[f l]|] eqn:E2; [|discriminate].
    intros [= <-].
    apply endgame_shutdown_effect in E1. apply endgame_close_effect in E2.
    destruct E1 as (S1 & S2 & S3 & _ & _ & _ & _ & S4 & S5 & S6).
    destruct E2 as (K1 & _ & K2 & K3 & _). unfold counters in K1.
    injection K1 as K1a K1b K1c _ _.
    destruct A as (A1 & A2 & A3 & A4).
    assert (V : virtual_req f = virtual_req h1)
      by (unfold virtual_req; rewrite K2, K3; reflexivity).
    unfold accounting; simpl. repeat split; try lia.
    rewrite K2, K3, S4. intros Hs. destruct (S6 Hs) as [Hs'|G]; auto.
    apply shutdown_guard_true in G. destruct G as (G & _). exact G.
  - intros [= <-]. destruct A as (A1 & A2 & A3 & A4).
    unfold accounting, uv_shutdown; simpl.
    destruct (has_flag (flags (s_file s)) UV_HANDLE_SHUTTING) eqn:Hs.
    + repeat split; auto.
    + assert (Hn : has_flag (flags (s_file s)) UV_HANDLE_SHUT = false).
      { destruct (has_flag (flags (s_file s)) UV_HANDLE_SHUT) eqn:Hx; auto.
        specialize (A4 eq_refl). discriminate. }
      unfold virtual_req in *. simpl. flag_simp. rewrite Hs, Hn in *. simpl in *.
      repeat split; auto; lia.
  - intros [= <-]. destruct A as (A1 & A2 & A3 & A4).
    unfold accounting, uv_close; simpl.
    destruct (has_flag (flags (s_file s)) UV_HANDLE_CLOSING) eqn:Hs.
    + repeat split; auto.
    + unfold virtual_req in *. simpl. flag_simp. repeat split; auto.
Qed.

Lemma close_guard_true (h : uv_file_t) :
  close_guard h = true <->
  has_flag (flags h) UV_HANDLE_CLOSING = true /\ reqs_pending h = 0.
Proof. unfold close_guard. now rewrite andb_true_iff, Z.eqb_eq. Qed.

(** Every action keeps the count of the calls of the close callback. *)
Lemma exec_closed_once (a : action) (s s' : sys) :
  closed_once s -> exec a s = Some s' -> closed_once s'.
Proof.
  intros C. destruct a; simpl.
  - destruct (uv_file_read_offset _ _ _ _ _ _ _ _ _) as [[[[ret r] f] l]|] eqn:E;
      [|discriminate].
    intros [= <-]. eapply (submitted_closed_once Read); eauto.
  - destruct (uv_file_write_offset _ _ _ _ _ _ _ _ _) as [[[[ret r] f] l]|] eqn:E;
      [|discriminate].
    intros [= <-]. eapply (submitted_closed_once Write); eauto.
  - destruct (nth_error (s_inflight s) i) as [r|]; [|discriminate].
    destruct (deliver r err query (s_file s) (s_loop s)) as [[f l]|] eqn:E;
      [|discriminate].
    intros [= <-]. apply deliver_effect in E.
    destruct E as (Hfl & Hcb & Hc & _). destruct C as (C1 & C2).
    unfold closed_once, has_close_cb in *. simpl. rewrite Hfl, Hcb, Hc. auto.
  - unfold uv_file_endgame.
    destruct (endgame_shutdown (s_file s) (s_loop s)) as [h1 l1] eqn:E1.
    destruct (endgame_close h1 l1) as [[f l]|] eqn:E2; [|discriminate].
    intros [= <-].
    apply endgame_shutdown_effect in E1. apply endgame_close_effect in E2.
    destruct E1 as (_ & _ & _ & S1 & S2 & S3 & S4 & _).
    destruct E2 as (_ & K1 & _ & _ & K2 & K3). destruct C as (C1 & C2).
    unfold closed_once, has_close_cb in *. simpl.
    destruct K3 as [(-> & -> & _) | (G & N & Y & Hc & _)].
    + rewrite S1, S2, S3, S4. auto.
    + apply close_guard_true in G. destruct G as (G & _).
      rewrite K2, G, Y, K1, Hc, S2, C2, <- S4, N, S1. simpl.
      split; [reflexivity|]. unfold one_if. destruct (close_cb (s_file s)); reflexivity.
  - intros [= <-]. destruct C as (C1 & C2).
    unfold closed_once, has_close_cb, uv_shutdown in *. simpl.
    destruct (has_flag (flags (s_file s)) UV_HANDLE_SHUTTING); [auto|].
    simpl. flag_simp. auto.
  - intros [= <-]. destruct C as (C1 & C2).
    unfold closed_once, has_close_cb, uv_close in *. simpl.
    destruct (has_flag (flags (s_file s)) UV_HANDLE_CLOSING) eqn:G; [auto|].
    simpl. flag_simp.
    destruct (has_flag (flags (s_file s)) UV_HANDLE_CLOSED) eqn:N.
    + specialize (C1 eq_refl). discriminate.
    + simpl in *. auto.
Qed.

Lemma run_invariant (P : sys -> Prop) :
  (forall a s s', P s -> exec a s = Some s' -> P s') ->
  forall acts s s', P s -> run acts s = Some s' -> P s'.
Proof.
  intros Hstep. induction acts as [|a acts IH]; intros s s' Hs; simpl.
  - now intros [= <-].
  - destruct (exec a s) as [s1|] eqn:E; [|discriminate].
    intros R. eapply IH; [|exact R]. eapply Hstep; eauto.
Qed.

Lemma fresh_file (pos : Z) (h0 : uv_file_t) (native : Z) (loop0 : uv_loop) :
  s_file (fresh pos h0 native loop0)
  = mk_file UV_FILE native UV_HANDLE_BOUND 0 0 0 0 0 (Int.wrap64 pos) (close_cb h0)
  /\ s_inflight (fresh pos h0 native loop0) = []
  /\ close_cb_calls (s_loop (fresh pos h0 native loop0)) = close_cb_calls loop0.
Proof.
  unfold fresh, uv_file_init. simpl. repeat split.
  unfold uv_set_file_handle. simpl.
  rewrite !close_cb_calls_emit. simpl.
  unfold close_cb_calls. simpl. lia.
Qed.

Lemma fresh_accounting (pos : Z) (h0 : uv_file_t) (native : Z) (loop0 : uv_loop) :
  accounting (fresh pos h0 native loop0).
Proof.
  destruct (fresh_file pos h0 native loop0) as (F & I & _).
  unfold accounting. rewrite F, I. simpl. repeat split. discriminate.
Qed.

Lemma fresh_closed_once (pos : Z) (h0 : uv_file_t) (native : Z) (loop0 : uv_loop) :
  close_cb_calls loop0 = 0 -> closed_once (fresh pos h0 native loop0).
Proof.
  intros H0. destruct (fresh_file pos h0 native loop0) as (F & _ & Hc).
  unfold closed_once. rewrite F, Hc. simpl. split; [discriminate | exact H0].
Qed.

(** [uv_file_init] returns 0 only when both operating-system calls
    succeed, and then leaves the system [fresh]. *)
Lemma uv_file_init_success (iocp : os_result unit) (posr : os_result Z)
    (h0 h : uv_file_t) (native : Z) (loop0 loop : uv_loop) :
  uv_file_init iocp posr h0 native loop0 = (0, h, loop) ->
  exists pos, mk_sys h loop [] = fresh pos h0 native loop0.
Proof.
  unfold fresh, uv_file_init, uv_set_file_handle. simpl.
  destruct iocp as [[]|e]; simpl; [|discriminate].
  destruct posr as [pos|e]; simpl; [|discriminate].
  intros [= <- <-]. exists pos. reflexivity.
Qed.

(** An endgame step that calls the close callback. *)
Lemma endgame_fires (s s' : sys) :
  accounting s -> closed_once s ->
  exec AEndgame s = Some s' ->
  close_cb_calls (s_loop s') = close_cb_calls (s_loop s) + 1 ->
  has_flag (flags (s_file s)) UV_HANDLE_CLOSING = true
  /\ has_flag (flags (s_file s)) UV_HANDLE_CLOSED = false
  /\ has_flag (flags (s_file s')) UV_HANDLE_CLOSED = true
  /\ reqs_pending (s_file s') = 0
  /\ read_reqs_pending (s_file s') = 0
  /\ write_reqs_pending (s_file s') = 0
  /\ count is_read (s_inflight s') = 0
  /\ count is_write (s_inflight s') = 0
  /\ (has_flag (flags (s_file s')) UV_HANDLE_SHUTTING = true ->
      has_flag (flags (s_file s')) UV_HANDLE_SHUT = true).
Proof.
  intros A C E Hc.
  pose proof (exec_accounting _ _ _ A E) as (A1 & A2 & A3 & _).
  revert E Hc. simpl. unfold uv_file_endgame.
  destruct (endgame_shutdown (s_file s) (s_loop s)) as [h1 l1] eqn:E1.
  destruct (endgame_close h1 l1) as [[f l]|] eqn:E2; [|discriminate].
  intros [= <-]. simpl in *. intros Hc.
  apply endgame_shutdown_effect in E1. apply endgame_close_effect in E2.
  destruct E1 as (_ & _ & _ & _ & S2 & S3 & S4 & _).
  destruct E2 as (K0 & _ & _ & _ & _ & [(_ & -> & _) | (G & N & Y & _)]); [lia|].
  apply close_guard_true in G. destruct G as (G1 & G2).
  unfold counters in K0. injection K0 as K0 _ _ _ _.
  pose proof (count_nonneg is_read (s_inflight s)).
  pose proof (count_nonneg is_write (s_inflight s)).
  pose proof (virtual_req_range f).
  assert (V : virtual_req f = 0) by lia.
  repeat split; try congruence; try lia.
  unfold virtual_req in V. intros Hs. rewrite Hs in V. simpl in V.
  destruct (has_flag (flags f) UV_HANDLE_SHUT); [reflexivity | discriminate].
Qed.

(** The final teardown step once its guard holds: an assertion failure on
    a closed handle, the teardown otherwise. *)
Lemma endgame_teardown (s : sys) (h1 : uv_file_t) (l1 : uv_loop) :
  closed_once s ->
  endgame_shutdown (s_file s) (s_loop s) = (h1, l1) ->
  close_guard h1 = true ->
  (has_flag (flags (s_file s)) UV_HANDLE_CLOSED = true -> exec AEndgame s = None)
  /\ (has_flag (flags (s_file s)) UV_HANDLE_CLOSED = false ->
      exists s', exec AEndgame s = Some s'
        /\ has_flag (flags (s_file s')) UV_HANDLE_CLOSED = true
        /\ close_cb_calls (s_loop s') = one_if (has_close_cb (s_file s))
        /\ refs (s_loop s') = refs l1 - 1).
Proof.
  intros (_ & C2) E1 G. simpl. unfold uv_file_endgame. rewrite E1.
  apply endgame_shutdown_effect in E1.
  destruct E1 as (_ & _ & _ & S1 & S2 & _ & S4 & _).
  split; intros N; rewrite N in *; simpl in C2.
  - unfold endgame_close. now rewrite G, S4.
  - destruct (endgame_close h1 l1) as [[f l]|] eqn:E2.
    + apply endgame_close_effect in E2.
      destruct E2 as (_ & _ & _ & _ & _ & [(_ & _ & G') | (_ & _ & Y & Hc & Hr)]);
        [congruence|].
      eexists. split; [reflexivity|]. simpl.
      unfold has_close_cb in *. rewrite Hc, S2, C2, S1. auto.
    + unfold endgame_close in E2. rewrite G, S4 in E2. discriminate.
Qed.

(** C3: on an initialised handle, after whatever the caller and the loop
    do, the close callback has been called at most once, and exactly once
    if the handle is closed and has a close callback.  An endgame step
    that calls it finds closing set and the handle not closed, and leaves
    it closed with [reqs_pending] 0, no read and no write in flight, and a
    requested shutdown carried out.  Once the guard of the teardown holds,
    the endgame stops on the assertion if the handle is closed already;
    otherwise it closes the handle, calls the callback if there is one
    and releases the loop reference. *)
Theorem close_ordering (iocp : os_result unit) (posr : os_result Z)
    (h0 h : uv_file_t) (native : Z) (loop0 loop : uv_loop)
    (acts : list action) (s : sys) :
  uv_file_init iocp posr h0 native loop0 = (0, h, loop) ->
  close_cb_calls loop0 = 0 ->
  run acts (mk_sys h loop []) = Some s ->
  close_cb_calls (s_loop s) <= 1
  /\ close_cb_calls (s_loop s)
     = (if has_flag (flags (s_file s)) UV_HANDLE_CLOSED && has_close_cb (s_file s)
        then 1 else 0)
  /\ (forall s', exec AEndgame s = Some s' ->
        close_cb_calls (s_loop s') = close_cb_calls (s_loop s) + 1 ->
        has_flag (flags (s_file s)) UV_HANDLE_CLOSING = true
        /\ has_flag (flags (s_file s)) UV_HANDLE_CLOSED = false
        /\ has_flag (flags (s_file s')) UV_HANDLE_CLOSED = true
        /\ reqs_pending (s_file s') = 0
        /\ read_reqs_pending (s_file s') = 0
        /\ write_reqs_pending (s_file s') = 0
        /\ count is_read (s_inflight s') = 0
        /\ count is_write (s_inflight s') = 0
        /\ (has_flag (flags (s_file s')) UV_HANDLE_SHUTTING = true ->
            has_flag (flags (s_file s')) UV_HANDLE_SHUT = true))
  /\ (forall h1 l1,
        endgame_shutdown (s_file s) (s_loop s) = (h1, l1) ->
        close_guard h1 = true ->
        (has_flag (flags (s_file s)) UV_HANDLE_CLOSED = true -> exec AEndgame s = None)
        /\ (has_flag (flags (s_file s)) UV_HANDLE_CLOSED = false ->
            exists s', exec AEndgame s = Some s'
              /\ has_flag (flags (s_file s')) UV_HANDLE_CLOSED = true
              /\ close_cb_calls (s_loop s') = one_if (has_close_cb (s_file s))
              /\ refs (s_loop s') = refs l1 - 1)).
Proof.
  intros Hi H0 R. destruct (uv_file_init_success _ _ _ _ _ _ _ Hi) as (pos & F).
  rewrite F in R.
  assert (A : accounting s)
    by (eapply (run_invariant accounting exec_accounting); eauto using fresh_accounting).
  assert (C : closed_once s)
    by (eapply (run_invariant closed_once exec_closed_once);
        eauto using fresh_closed_once).
  split; [|split; [|split]].
  - destruct C as (_ & ->). destruct (_ && _); lia.
  - apply C.
  - intros s'. apply endgame_fires; assumption.
  - intros h1 l1. apply endgame_teardown; assumption.
Qed.

(** * Further properties *)

(** ** What a submission, a completion and the endgame do, in full *)

Lemma uv_count_bufs_one (b0 : uv_buf_t) (rest : list uv_buf_t) :
  uv_count_bufs (b0 :: rest) 1 = len b0.
Proof. unfold uv_count_bufs. simpl. lia. Qed.

(** A submission either is rejected before it touches anything, or
    reaches the call of the operating system. *)
Lemma submit_shape (dir : direction) (req : uv_req) (file : uv_file_t)
    (offset : Z) (d : uv_offset_disposition) (bufs_ : list uv_buf_t)
    (bufcnt_ : Z) (cb_ : callback) (os : os_answer) (loop : uv_loop)
    (ret : Z) (r : uv_req) (f : uv_file_t) (l : uv_loop) :
  submit dir req file offset d bufs_ bufcnt_ cb_ os loop = Some (ret, r, f, l) ->
  (ret = -1 /\ r = req /\ f = file /\ log l = log loop /\ refs l = refs loop)
  \/ (exists b0 rest fc rc,
        bufs_ = b0 :: rest
        /\ log l = log loop ++ [os_call dir fc rc]
        /\ bufs rc = bufs_
        /\ refs l = refs loop
        /\ type f = type file
        /\ handle f = handle file
        /\ flags f = flags file
        /\ close_cb f = close_cb file
        /\ file_pointer f = Int.add64 (file_pointer file) (len b0)
        /\ bufs r = bufs_
        /\ req_type r = dir_type dir
        /\ ((ret = -1 /\ counters f = counters file)
            \/ (ret = 0
                /\ queued_bytes r = (if result os then 0 else len b0)
                /\ reqs_pending f = reqs_pending file + 1
                /\ read_reqs_pending f = read_reqs_pending file + one_if (is_read r)
                /\ write_reqs_pending f = write_reqs_pending file + one_if (is_write r)
                /\ read_queue_size f
                   = read_queue_size file + (if is_read r then queued_bytes r else 0)
                /\ write_queue_size f
                   = write_queue_size file + (if is_write r then queued_bytes r else 0)))).
Proof.
  destruct dir; simpl; unfold uv_file_read_offset, uv_file_write_offset;
    (destruct (bufcnt_ =? 1) eqn:B; simpl;
     [apply Z.eqb_eq in B; subst bufcnt_
     |intros [= <- <- <- <-]; left; repeat split]);
    (destruct (true_offset offset d (file_pointer file)); simpl;
     [|intros [= <- <- <- <-]; left; repeat split]);
    (destruct bufs_ as [|b0 rest]; [discriminate|]);
    destruct (result os) eqn:R; simpl;
    try destruct (GetLastError os =? ERROR_IO_PENDING); simpl;
    intros [= <- <- <- <-]; right; exists b0, rest; do 2 eexists;
    do 11 (split; [reflexivity|]);
    first [left; split; reflexivity
          |right; rewrite ?uv_count_bufs_one; unfold is_read, is_write, one_if; simpl;
           repeat split; lia].
Qed.

(** A completion takes the request off the counters and the queue of its
    direction, logs the query and at most one callback, and leaves the
    rest of the handle alone. *)
Lemma deliver_shape (r : uv_req) (err : uv_err_t) (query : option Z)
    (h h' : uv_file_t) (loop loop' : uv_loop) :
  deliver r err query h loop = Some (h', loop') ->
  type h' = type h
  /\ handle h' = handle h
  /\ flags h' = flags h
  /\ close_cb h' = close_cb h
  /\ file_pointer h' = file_pointer h
  /\ refs loop' = refs loop
  /\ reqs_pending h' = reqs_pending h - 1
  /\ read_reqs_pending h' = read_reqs_pending h - one_if (is_read r)
  /\ write_reqs_pending h' = write_reqs_pending h - one_if (is_write r)
  /\ read_queue_size h' = read_queue_size h - (if is_read r then queued_bytes r else 0)
  /\ write_queue_size h' = write_queue_size h - (if is_write r then queued_bytes r else 0)
  /\ is_read r || is_write r = true
  /\ exists evs, log loop' = log loop ++ evs
                 /\ forallb is_completion_event evs = true.
Proof.
  unfold deliver, uv_process_file_read_req, uv_process_file_write_req,
    is_read, is_write.
  destruct (req_type r); try discriminate;
    destruct (is_UV_FILE (type h)); simpl; try discriminate.
  - destruct (cb r); [destruct (bufs r)|]; simpl; try discriminate;
      intros [= <- <-]; simpl;
      do 5 (split; [reflexivity|]); do 6 (split; [simpl; lia|]);
      (split; [reflexivity|]); eexists;
      (split; [rewrite <- ?app_assoc; reflexivity | reflexivity]).
  - destruct (cb r); intros [= <- <-]; simpl;
      do 5 (split; [reflexivity|]); do 6 (split; [simpl; lia|]);
      (split; [reflexivity|]); eexists;
      (split; [rewrite <- ?app_assoc; reflexivity | reflexivity]).
Qed.

(** An endgame call that returns: [fired] tells whether the final
    teardown step has run. *)
Lemma endgame_shape (h h' : uv_file_t) (loop loop' : uv_loop) :
  uv_file_endgame h loop = Some (h', loop') ->
  exists fired : bool,
    type h' = type h
    /\ close_cb h' = close_cb h
    /\ file_pointer h' = file_pointer h
    /\ read_reqs_pending h' = read_reqs_pending h
    /\ write_reqs_pending h' = write_reqs_pending h
    /\ read_queue_size h' = read_queue_size h
    /\ write_queue_size h' = write_queue_size h
    /\ handle h' = (if shutdown_guard h then INVALID_HANDLE_VALUE else handle h)
    /\ reqs_pending h' = reqs_pending h - one_if (shutdown_guard h)
    /\ flags h'
       = (let f1 := if shutdown_guard h then add_flag (flags h) UV_HANDLE_SHUT
                    else flags h in
          if fired then add_flag f1 UV_HANDLE_CLOSED else f1)
    /\ refs loop' = refs loop - one_if fired
    /\ log loop'
       = log loop
         ++ (if shutdown_guard h then [EvCloseHandle (handle h)] else [])
         ++ (if fired
             then match close_cb h with Some f => [EvCloseCb f h'] | None => [] end
             else [])
    /\ (fired = true ->
        has_flag (flags h) UV_HANDLE_CLOSED = false
        /\ has_flag (flags h) UV_HANDLE_CLOSING = true
        /\ reqs_pending h' = 0)
    /\ (fired = false ->
        has_flag (flags h) UV_HANDLE_CLOSING = false \/ reqs_pending h' <> 0).
Proof.
  unfold uv_file_endgame.
  destruct (endgame_shutdown h loop) as [h1 l1] eqn:E1. intros E2.
  assert (F : has_flag (flags h1) UV_HANDLE_CLOSED = has_flag (flags h) UV_HANDLE_CLOSED
              /\ has_flag (flags h1) UV_HANDLE_CLOSING
                 = has_flag (flags h) UV_HANDLE_CLOSING).
  { apply endgame_shutdown_effect in E1.
    destruct E1 as (_ & _ & _ & _ & _ & S3 & S4 & _). split; assumption. }
  destruct F as (F1 & F2).
  apply endgame_close_cases in E2.
  destruct (shutdown_guard h) eqn:G.
  - rewrite (endgame_shutdown_runs h loop G) in E1. injection E1 as <- <-.
    destruct E2 as [(Gc & -> & ->) | (Gc & N & -> & ->)].
    + exists false. simpl. do 11 (split; [try reflexivity; lia|]).
      rewrite ?app_nil_r. split; [reflexivity|]. split; [discriminate|].
      intros _. unfold close_guard in Gc.
      apply andb_false_iff in Gc.
      destruct Gc as [Gc|Gc]; [left; rewrite <- F2; exact Gc|].
      right. apply Z.eqb_neq in Gc. exact Gc.
    + exists true. apply close_guard_true in Gc. destruct Gc as (Gc1 & Gc2).
      simpl in *. do 10 (split; [try reflexivity; lia|]).
      split; [destruct (close_cb h); simpl; lia|].
      split; [destruct (close_cb h); simpl; rewrite <- ?app_assoc; reflexivity|].
      split; [|discriminate].
      intros _. rewrite <- F1, <- F2. auto.
  - rewrite (endgame_shutdown_skips h loop G) in E1. injection E1 as <- <-.
    destruct E2 as [(Gc & -> & ->) | (Gc & N & -> & ->)].
    + exists false. simpl. do 11 (split; [try reflexivity; lia|]).
      rewrite ?app_nil_r. split; [reflexivity|]. split; [discriminate|].
      intros _. unfold close_guard in Gc.
      apply andb_false_iff in Gc.
      destruct Gc as [Gc|Gc]; [left; exact Gc|].
      right. apply Z.eqb_neq in Gc. exact Gc.
    + exists true. apply close_guard_true in Gc. destruct Gc as (Gc1 & Gc2).
      simpl in *. do 10 (split; [try reflexivity; lia|]).
      split; [destruct (close_cb h); simpl; lia|].
      split; [destruct (close_cb h); simpl; rewrite ?app_nil_r; reflexivity|].
      split; [|discriminate].
      intros _. auto.
Qed.

(** ** Initialisation *)

(** X1: [uv_file_init] returns 0 exactly when both [CreateIoCompletionPort]
    and [SetFilePointerEx] succeed; the handle is then bound and its cursor
    is the position the file is at.  When the registration fails,
    [SetFilePointerEx] is not called; when either call fails the result is
    -1, the last error is the translated system error, the bound flag is
    not added and the cursor is not written.  In every case the handle is
    left with type [UV_FILE], the native handle stored and [reqs_pending]
    0, and the [file_init] counter goes up by one. *)
Theorem uv_file_init_outcome (iocp : os_result unit) (posr : os_result Z)
    (h0 : uv_file_t) (native : Z) (loop0 : uv_loop) :
  exists r h l,
    uv_file_init iocp posr h0 native loop0 = (r, h, l)
    /\ type h = UV_FILE
    /\ handle h = native
    /\ reqs_pending h = 0
    /\ close_cb h = close_cb h0
    /\ file_init_count l = file_init_count loop0 + 1
    /\ (r = 0 <-> exists u p, iocp = OsOk u /\ posr = OsOk p)
    /\ (forall u p, iocp = OsOk u -> posr = OsOk p ->
        r = 0
        /\ flags h = add_flag (flags (fst (uv_stream_init h0 loop0))) UV_HANDLE_BOUND
        /\ has_flag (flags h) UV_HANDLE_BOUND = true
        /\ file_pointer h = Int.wrap64 p
        /\ last_error l = last_error loop0
        /\ log l = log loop0 ++ [EvCreateIoCompletionPort native;
                                 EvSetFilePointerEx native])
    /\ (forall e, iocp = OsErr e ->
        r = -1
        /\ flags h = flags (fst (uv_stream_init h0 loop0))
        /\ file_pointer h = file_pointer h0
        /\ last_error l = mk_err (uv_translate_sys_error e) e
        /\ log l = log loop0 ++ [EvCreateIoCompletionPort native])
    /\ (forall u e, iocp = OsOk u -> posr = OsErr e ->
        r = -1
        /\ flags h = flags (fst (uv_stream_init h0 loop0))
        /\ file_pointer h = file_pointer h0
        /\ last_error l = mk_err (uv_translate_sys_error e) e
        /\ log l = log loop0 ++ [EvCreateIoCompletionPort native;
                                 EvSetFilePointerEx native]).
Proof.
  unfold uv_file_init, uv_set_file_handle.
  destruct iocp as [[]|e]; [destruct posr as [p|e]|]; simpl; do 3 eexists;
    (split; [reflexivity|]); do 5 (split; [reflexivity|]).
  - split; [split; [intros _; exists tt, p; auto | reflexivity]|].
    split; [|split; [discriminate | intros u e' _; discriminate]].
    intros u p' _ [= <-]. simpl. rewrite <- ?app_assoc.
    repeat split.
  - split; [split; [discriminate | intros (u & p & _ & Hp); discriminate]|].
    split; [intros u p _; discriminate|]. split; [discriminate|].
    intros u e' _ [= <-]. simpl. rewrite <- ?app_assoc. repeat split.
  - split; [split; [discriminate | intros (u & p & Hu & _); discriminate]|].
    split; [discriminate|]. split; [|intros u e'; discriminate].
    intros e' [= <-]. simpl. repeat split.
Qed.

(** ** Submission, beyond the claims *)

Lemma submission_accepted_aux (dir : direction) (req : uv_req) (file : uv_file_t)
    (offset : Z) (d : uv_offset_disposition) (b : uv_buf_t) (rest : list uv_buf_t)
    (cb_ : callback) (os : os_answer) (loop : uv_loop) :
  d <> UV_END ->
  result os = true \/ GetLastError os = ERROR_IO_PENDING ->
  exists r f l,
    submit dir req file offset d (b :: rest) 1 cb_ os loop = Some (0, r, f, l)
    /\ req_type r = dir_type dir
    /\ cb r = cb_
    /\ bufs r = b :: rest
    /\ queued_bytes r = (if result os then 0 else len b)
    /\ reqs_pending f = reqs_pending file + 1
    /\ read_reqs_pending f
       = read_reqs_pending file + (match dir with Read => 1 | Write => 0 end)
    /\ write_reqs_pending f
       = write_reqs_pending file + (match dir with Read => 0 | Write => 1 end)
    /\ read_queue_size f
       = read_queue_size file + (match dir with Read => queued_bytes r | Write => 0 end)
    /\ write_queue_size f
       = write_queue_size file + (match dir with Read => 0 | Write => queued_bytes r end)
    /\ flags f = flags file
    /\ handle f = handle file
    /\ file_pointer f = Int.add64 (file_pointer file) (len b)
    /\ type f = type file.
Proof.
  intros Hd Hos. destruct os as [res gle]. simpl in Hos.
  assert (C : negb res && negb (gle =? ERROR_IO_PENDING) = false).
  { destruct Hos as [-> | ->]; [reflexivity | apply andb_false_r]. }
  destruct dir, d; try congruence;
    unfold submit, uv_file_read_offset, uv_file_write_offset; simpl;
    rewrite C; do 3 eexists; (split; [reflexivity|]);
    destruct res; simpl; rewrite ?uv_count_bufs_one; repeat split; lia.
Qed.

(** X2: a submission of one buffer with disposition [UV_START] or
    [UV_CURRENT] that the operating system completes at once or reports as
    pending returns 0, whatever the flags of the handle (shut, closing and
    closed handles included).  It counts the request in [reqs_pending] and
    in the pending counter of its direction; a request completed at once
    queues no bytes, a pending one queues the length of its buffer on the
    queue of its direction.  Flags, native handle and last error are as
    before. *)
Theorem submission_accepted (dir : direction) (req : uv_req) (file : uv_file_t)
    (offset : Z) (d : uv_offset_disposition) (b : uv_buf_t) (rest : list uv_buf_t)
    (cb_ : callback) (os : os_answer) (loop : uv_loop) :
  d <> UV_END ->
  result os = true \/ GetLastError os = ERROR_IO_PENDING ->
  exists r f l,
    submit dir req file offset d (b :: rest) 1 cb_ os loop = Some (0, r, f, l)
    /\ req_type r = dir_type dir
    /\ cb r = cb_
    /\ bufs r = b :: rest
    /\ queued_bytes r = (if result os then 0 else len b)
    /\ reqs_pending f = reqs_pending file + 1
    /\ read_reqs_pending f
       = read_reqs_pending file + (match dir with Read => 1 | Write => 0 end)
    /\ write_reqs_pending f
       = write_reqs_pending file + (match dir with Read => 0 | Write => 1 end)
    /\ read_queue_size f
       = read_queue_size file + (match dir with Read => queued_bytes r | Write => 0 end)
    /\ write_queue_size f
       = write_queue_size file + (match dir with Read => 0 | Write => queued_bytes r end)
    /\ flags f = flags file
    /\ handle f = handle file
    /\ last_error l = last_error loop.
Proof.
  intros Hd Hos. destruct os as [res gle]. simpl in Hos.
  assert (C : negb res && negb (gle =? ERROR_IO_PENDING) = false).
  { destruct Hos as [-> | ->]; [reflexivity | apply andb_false_r]. }
  destruct dir, d; try congruence;
    unfold submit, uv_file_read_offset, uv_file_write_offset; simpl;
    rewrite C; do 3 eexists; (split; [reflexivity|]);
    destruct res; simpl; rewrite ?uv_count_bufs_one; repeat split; lia.
Qed.

(** X3: a submission of one buffer that reaches the operating-system call
    moves the logical cursor by the length of the buffer and by nothing
    else: with [UV_START] as with [UV_CURRENT], whatever the requested
    offset and whatever the operating system answers, the cursor after the
    call is the cursor before plus [bufs[0].len].  An absolute offset does
    not reposition the cursor. *)
Theorem cursor_moves_by_length (dir : direction) (req : uv_req) (file : uv_file_t)
    (offset : Z) (d : uv_offset_disposition) (b : uv_buf_t) (rest : list uv_buf_t)
    (cb_ : callback) (os : os_answer) (loop : uv_loop) :
  d <> UV_END ->
  exists ret r f l,
    submit dir req file offset d (b :: rest) 1 cb_ os loop = Some (ret, r, f, l)
    /\ (ret = 0 \/ ret = -1)
    /\ file_pointer f = Int.add64 (file_pointer file) (len b).
Proof.
  intros Hd. destruct d; try congruence;
    submit_cases dir os; do 4 eexists;
    (split; [reflexivity|]); split; auto.
Qed.

(** X4: an accepted submission followed by the completion of its request
    leaves the five counters of the handle (the three pending counters and
    the two queue sizes) as they were before the submission, with the flags
    and the native handle; only the cursor stays moved by the length of the
    buffer. *)
Theorem submit_then_complete (dir : direction) (req : uv_req) (file : uv_file_t)
    (offset : Z) (d : uv_offset_disposition) (b : uv_buf_t) (rest : list uv_buf_t)
    (cb_ : callback) (os : os_answer) (loop : uv_loop)
    (err : uv_err_t) (query : option Z) :
  d <> UV_END ->
  result os = true \/ GetLastError os = ERROR_IO_PENDING ->
  type file = UV_FILE ->
  exists r f l f' l',
    submit dir req file offset d (b :: rest) 1 cb_ os loop = Some (0, r, f, l)
    /\ deliver r err query f l = Some (f', l')
    /\ counters f' = counters file
    /\ flags f' = flags file
    /\ handle f' = handle file
    /\ file_pointer f' = Int.add64 (file_pointer file) (len b).
Proof.
  intros Hd Hos Ht.
  destruct (submission_accepted_aux dir req file offset d b rest cb_ os loop Hd Hos)
    as (r & f & l & E & Hty & Hcb & Hb & Hq & H1 & H2 & H3 & H4 & H5 & Hfl & Hh & Hfp & Htf).
  assert (D : exists f' l', deliver r err query f l = Some (f', l')).
  { unfold deliver, uv_process_file_read_req, uv_process_file_write_req, set_error.
    rewrite Hty, Htf, Ht. destruct dir; simpl; rewrite ?Hb; destruct (cb r); eauto. }
  destruct D as (f' & l' & D). exists r, f, l, f', l'.
  split; [exact E|]. split; [exact D|].
  apply deliver_shape in D.
  destruct D as (_ & D2 & D3 & _ & D5 & _ & D7 & D8 & D9 & D10 & D11 & _).
  assert (R : is_read r = match dir with Read => true | Write => false end
              /\ is_write r = match dir with Read => false | Write => true end).
  { unfold is_read, is_write. rewrite Hty. destruct dir; split; reflexivity. }
  destruct R as (R1 & R2). rewrite R1, R2 in *.
  split; [|repeat split; congruence].
  unfold counters. destruct dir; unfold one_if in *;
    repeat (f_equal; try lia).
Qed.

(** ** Queue sizes *)

Lemma sum_app (l1 l2 : list Z) : Int.sum (l1 ++ l2) = Int.sum l1 + Int.sum l2.
Proof. induction l1 as [|x l1 IH]; simpl; lia. Qed.

Lemma queued_snoc (p : uv_req -> bool) (l : list uv_req) (r : uv_req) :
  queued p (l ++ [r]) = queued p l + (if p r then queued_bytes r else 0).
Proof.
  unfold queued. rewrite filter_app, map_app, sum_app. simpl.
  destruct (p r); simpl; lia.
Qed.

Lemma queued_remove_nth (p : uv_req -> bool) (l : list uv_req) :
  forall i r, nth_error l i = Some r ->
    queued p (remove_nth i l) = queued p l - (if p r then queued_bytes r else 0).
Proof.
  unfold queued, remove_nth.
  induction l as [|y l IH]; intros [|i] r Hi; simpl in Hi; try discriminate.
  - injection Hi as ->. simpl. destruct (p r); simpl; lia.
  - specialize (IH i r Hi). simpl in *.
    destruct (p y); simpl; destruct (p r); lia.
Qed.

Lemma forallb_remove_nth {A : Type} (p : A -> bool) (l : list A) (i : nat) :
  forallb p l = true -> forallb p (remove_nth i l) = true.
Proof.
  unfold remove_nth. intros H. rewrite forallb_forall in *.
  intros x Hx. apply H. apply in_app_or in Hx.
  destruct Hx as [Hx|Hx].
  - rewrite <- (firstn_skipn i l). apply in_or_app. left. exact Hx.
  - rewrite <- (firstn_skipn (S i) l). apply in_or_app. right. exact Hx.
Qed.

Lemma submitted_queue_accounting (dir : direction) (s : sys) (ret : Z) (r : uv_req)
    (f : uv_file_t) (l : uv_loop) req offset d bufs_ bufcnt_ cb_ os :
  queue_accounting s ->
  submit dir req (s_file s) offset d bufs_ bufcnt_ cb_ os (s_loop s)
    = Some (ret, r, f, l) ->
  queue_accounting (mk_sys f l (if ret =? 0 then s_inflight s ++ [r] else s_inflight s)).
Proof.
  intros (Q1 & Q2 & Q3) E. apply submit_shape in E.
  destruct E as [(-> & _ & -> & _) | (b0 & rest & fc & rc & _ & _ & _ & _ & _ & _ & _ & _
                                      & _ & _ & Hty & [(-> & Hc) | (-> & _ & _ & _ & _ & H4 & H5)])].
  - split; [|split]; assumption.
  - unfold counters in Hc. injection Hc as _ _ _ Hr Hw.
    unfold queue_accounting. simpl. rewrite Hr, Hw. split; [|split]; assumption.
  - unfold queue_accounting. simpl. rewrite !queued_snoc, H4, H5, Q1, Q2.
    split; [reflexivity|]. split; [reflexivity|].
    rewrite forallb_app, Q3. simpl. unfold is_read, is_write. rewrite Hty.
    destruct dir; reflexivity.
Qed.

(** Every action keeps the queue sizes equal to the bytes queued by the
    requests in flight. *)
Lemma exec_queue_accounting (a : action) (s s' : sys) :
  queue_accounting s -> exec a s = Some s' -> queue_accounting s'.
Proof.
  intros Q. destruct a; simpl.
  - destruct (uv_file_read_offset _ _ _ _ _ _ _ _ _) as [[[[ret r] f] l]|] eqn:E;
      [|discriminate].
    intros [= <-]. eapply (submitted_queue_accounting Read); eauto.
  - destruct (uv_file_write_offset _ _ _ _ _ _ _ _ _) as [[[[ret r] f] l]|] eqn:E;
      [|discriminate].
    intros [= <-]. eapply (submitted_queue_accounting Write); eauto.
  - destruct (nth_error (s_inflight s) i) as [r|] eqn:N; [|discriminate].
    destruct (deliver r err query (s_file s) (s_loop s)) as [[f l]|] eqn:E;
      [|discriminate].
    intros [= <-]. apply deliver_shape in E.
    destruct E as (_ & _ & _ & _ & _ & _ & _ & _ & _ & D1 & D2 & _).
    destruct Q as (Q1 & Q2 & Q3). unfold queue_accounting. simpl.
    rewrite !(queued_remove_nth _ _ _ _ N), D1, D2, Q1, Q2.
    split; [reflexivity|]. split; [reflexivity|].
    apply forallb_remove_nth, Q3.
  - destruct (uv_file_endgame (s_file s) (s_loop s)) as [[f l]|] eqn:E; [|discriminate].
    intros [= <-]. apply endgame_shape in E.
    destruct E as (fired & _ & _ & _ & _ & _ & E1 & E2 & _).
    destruct Q as (Q1 & Q2 & Q3). unfold queue_accounting. simpl.
    rewrite E1, E2. split; [|split]; assumption.
  - intros [= <-]. destruct Q as (Q1 & Q2 & Q3).
    unfold queue_accounting, uv_shutdown. simpl.
    destruct (has_flag (flags (s_file s)) UV_HANDLE_SHUTTING);
      split; [|split| |split]; assumption.
  - intros [= <-]. destruct Q as (Q1 & Q2 & Q3).
    unfold queue_accounting, uv_close. simpl.
    destruct (has_flag (flags (s_file s)) UV_HANDLE_CLOSING);
      split; [|split| |split]; assumption.
Qed.

Lemma fresh_queue_accounting (pos : Z) (h0 : uv_file_t) (native : Z) (loop0 : uv_loop) :
  queue_accounting (fresh pos h0 native loop0).
Proof.
  destruct (fresh_file pos h0 native loop0) as (F & I & _).
  unfold queue_accounting. rewrite F, I. repeat split.
Qed.

(** X5: on an initialised handle, after whatever the caller and the loop
    do, [read_queue_size] is the sum of the [queued_bytes] of the reads in
    flight and [write_queue_size] that of the writes in flight; every
    request in flight is a read or a write; when nothing is in flight both
    queue sizes are 0. *)
Theorem queue_bytes_accounting (iocp : os_result unit) (posr : os_result Z)
    (h0 h : uv_file_t) (native : Z) (loop0 loop : uv_loop)
    (acts : list action) (s : sys) :
  uv_file_init iocp posr h0 native loop0 = (0, h, loop) ->
  run acts (mk_sys h loop []) = Some s ->
  read_queue_size (s_file s) = queued is_read (s_inflight s)
  /\ write_queue_size (s_file s) = queued is_write (s_inflight s)
  /\ forallb (fun r => is_read r || is_write r) (s_inflight s) = true
  /\ (s_inflight s = [] ->
      read_queue_size (s_file s) = 0 /\ write_queue_size (s_file s) = 0).
Proof.
  intros Hi R. destruct (uv_file_init_success _ _ _ _ _ _ _ Hi) as (pos & F).
  rewrite F in R.
  assert (Q : queue_accounting s)
    by (eapply (run_invariant queue_accounting exec_queue_accounting);
        eauto using fresh_queue_accounting).
  destruct Q as (Q1 & Q2 & Q3).
  split; [exact Q1|]. split; [exact Q2|]. split; [exact Q3|].
  intros E. rewrite Q1, Q2, E. split; reflexivity.
Qed.

(** ** The native handle and the loop reference *)

Lemma completion_events_inert (evs : list event) :
  forallb is_completion_event evs = true ->
  filter is_close_handle evs = [] /\ issued_bytes evs = 0.
Proof.
  unfold issued_bytes.
  induction evs as [|e evs IH]; simpl; [auto|].
  intros H. apply andb_true_iff in H. destruct H as (He & H).
  destruct (IH H) as (IH1 & IH2).
  destruct e; simpl in *; try discriminate; split; auto; lia.
Qed.

Lemma close_handle_calls_app (l l' : uv_loop) (evs : list event) :
  log l' = log l ++ evs ->
  close_handle_calls l' = close_handle_calls l ++ filter is_close_handle evs.
Proof. unfold close_handle_calls. intros ->. apply filter_app. Qed.

Lemma os_call_inert (dir : direction) (fc : uv_file_t) (rc : uv_req) :
  filter is_close_handle [os_call dir fc rc] = [].
Proof. destruct dir; reflexivity. Qed.

(** Every action keeps the life of the native handle and of the loop
    reference. *)
Lemma exec_lifecycle (native : Z) (closes0 : list event) (refs0 : Z)
    (a : action) (s s' : sys) :
  lifecycle native closes0 refs0 s -> exec a s = Some s' ->
  lifecycle native closes0 refs0 s'.
Proof.
  intros (L1 & L2 & L3). destruct a; simpl.
  - destruct (uv_file_read_offset _ _ _ _ _ _ _ _ _) as [[[[ret r] f] l]|] eqn:E;
      [|discriminate].
    intros [= <-]. apply (submit_shape Read) in E. unfold lifecycle. simpl.
    destruct E as [(_ & _ & -> & El & Er)
                  | (b0 & rest & fc & rc & _ & El & _ & Er & _ & Hh & Hf & _)].
    + unfold close_handle_calls in *. rewrite El, Er. auto.
    + rewrite (close_handle_calls_app _ _ _ El), os_call_inert, app_nil_r, Hh, Hf, Er.
      auto.
  - destruct (uv_file_write_offset _ _ _ _ _ _ _ _ _) as [[[[ret r] f] l]|] eqn:E;
      [|discriminate].
    intros [= <-]. apply (submit_shape Write) in E. unfold lifecycle. simpl.
    destruct E as [(_ & _ & -> & El & Er)
                  | (b0 & rest & fc & rc & _ & El & _ & Er & _ & Hh & Hf & _)].
    + unfold close_handle_calls in *. rewrite El, Er. auto.
    + rewrite (close_handle_calls_app _ _ _ El), os_call_inert, app_nil_r, Hh, Hf, Er.
      auto.
  - destruct (nth_error (s_inflight s) i) as [r|]; [|discriminate].
    destruct (deliver r err query (s_file s) (s_loop s)) as [[f l]|] eqn:E;
      [|discriminate].
    intros [= <-]. apply deliver_shape in E.
    destruct E as (_ & Hh & Hf & _ & _ & Er & _ & _ & _ & _ & _ & _ & evs & El & Hev).
    apply completion_events_inert in Hev. destruct Hev as (Hev & _).
    unfold lifecycle. simpl.
    rewrite (close_handle_calls_app _ _ _ El), Hev, app_nil_r, Hh, Hf, Er. auto.
  - destruct (uv_file_endgame (s_file s) (s_loop s)) as [[f l]|] eqn:E; [|discriminate].
    intros [= <-]. apply endgame_shape in E.
    destruct E as (fired & _ & _ & _ & _ & _ & _ & _ & Hh & _ & Hf & Er & El & Ft & _).
    unfold lifecycle. simpl. rewrite (close_handle_calls_app _ _ _ El), Hh, Er, L2, L3.
    rewrite filter_app.
    assert (Ecb : filter is_close_handle
                    (if fired
                     then match close_cb (s_file s) with
                          | Some f0 => [EvCloseCb f0 f]
                          | None => []
                          end
                     else []) = []).
    { destruct fired; [destruct (close_cb (s_file s))|]; reflexivity. }
    rewrite Ecb, app_nil_r.
    destruct (shutdown_guard (s_file s)) eqn:G.
    + apply shutdown_guard_true in G. destruct G as (_ & G & _).
      rewrite G in *. rewrite L1, app_nil_r. simpl.
      destruct fired.
      * destruct (Ft eq_refl) as (N & _). rewrite N. rewrite Hf. simpl. flag_simp.
        repeat split. unfold one_if. lia.
      * rewrite Hf. simpl. flag_simp. repeat split. lia.
    + simpl. rewrite app_nil_r. destruct fired.
      * destruct (Ft eq_refl) as (N & _). rewrite N, Hf. simpl. flag_simp.
        repeat split; auto. unfold one_if. lia.
      * rewrite Hf. simpl. rewrite Z.sub_0_r. auto.
  - intros [= <-]. unfold lifecycle, uv_shutdown. simpl.
    destruct (has_flag (flags (s_file s)) UV_HANDLE_SHUTTING); [auto|].
    simpl. flag_simp. auto.
  - intros [= <-]. unfold lifecycle, uv_close. simpl.
    destruct (has_flag (flags (s_file s)) UV_HANDLE_CLOSING); [auto|].
    simpl. flag_simp. auto.
Qed.

Lemma fresh_log (pos : Z) (h0 : uv_file_t) (native : Z) (loop0 : uv_loop) :
  log (s_loop (fresh pos h0 native loop0))
  = log loop0 ++ [EvCreateIoCompletionPort native; EvSetFilePointerEx native].
Proof.
  unfold fresh, uv_file_init, uv_set_file_handle. simpl.
  rewrite <- app_assoc. reflexivity.
Qed.

Lemma fresh_lifecycle (pos : Z) (h0 : uv_file_t) (native : Z) (loop0 : uv_loop) :
  lifecycle native (close_handle_calls loop0)
            (refs (s_loop (fresh pos h0 native loop0)))
            (fresh pos h0 native loop0).
Proof.
  destruct (fresh_file pos h0 native loop0) as (F & _ & _).
  unfold lifecycle.
  rewrite (close_handle_calls_app _ _ _ (fresh_log pos h0 native loop0)), F.
  simpl. repeat split. lia.
Qed.


(** X7: the endgame releases the keep-alive reference of the loop exactly
    once in the life of a handle, when the handle becomes closed, with or
    without a close callback: after whatever the caller and the loop do,
    the loop holds the references it held after [uv_file_init], less one if
    the handle is closed. *)
Theorem loop_reference_released_once (iocp : os_result unit) (posr : os_result Z)
    (h0 h : uv_file_t) (native : Z) (loop0 loop : uv_loop)
    (acts : list action) (s : sys) :
  uv_file_init iocp posr h0 native loop0 = (0, h, loop) ->
  run acts (mk_sys h loop []) = Some s ->
  refs (s_loop s)
  = refs loop - (if has_flag (flags (s_file s)) UV_HANDLE_CLOSED then 1 else 0).
Proof.
  intros Hi R. destruct (uv_file_init_success _ _ _ _ _ _ _ Hi) as (pos & F).
  rewrite F in R.
  pose proof (run_invariant _ (exec_lifecycle native (close_handle_calls loop0)
                                 (refs (s_loop (fresh pos h0 native loop0))))
                acts _ _ (fresh_lifecycle pos h0 native loop0) R) as (_ & _ & L3).
  rewrite L3. rewrite <- F. reflexivity.
Qed.

(** Without a shutdown request the handle never becomes shutting or
    shut. *)
Lemma exec_never_shut (a : action) (s s' : sys) :
  is_shutdown_request a = false ->
  has_flag (flags (s_file s)) UV_HANDLE_SHUTTING = false
  /\ has_flag (flags (s_file s)) UV_HANDLE_SHUT = false ->
  exec a s = Some s' ->
  has_flag (flags (s_file s')) UV_HANDLE_SHUTTING = false
  /\ has_flag (flags (s_file s')) UV_HANDLE_SHUT = false.
Proof.
  intros Ha (N1 & N2). destruct a; simpl in *; try discriminate.
  - destruct (uv_file_read_offset _ _ _ _ _ _ _ _ _) as [[[[ret r] f] l]|] eqn:E;
      [|discriminate].
    intros [= <-]. apply (submit_effect Read) in E. simpl.
    destruct E as (-> & _). auto.
  - destruct (uv_file_write_offset _ _ _ _ _ _ _ _ _) as [[[[ret r] f] l]|] eqn:E;
      [|discriminate].
    intros [= <-]. apply (submit_effect Write) in E. simpl.
    destruct E as (-> & _). auto.
  - destruct (nth_error (s_inflight s) i) as [r|]; [|discriminate].
    destruct (deliver r err query (s_file s) (s_loop s)) as [[f l]|] eqn:E;
      [|discriminate].
    intros [= <-]. apply deliver_effect in E. simpl.
    destruct E as (-> & _). auto.
  - destruct (uv_file_endgame (s_file s) (s_loop s)) as [[f l]|] eqn:E; [|discriminate].
    intros [= <-]. apply endgame_shape in E.
    destruct E as (fired & _ & _ & _ & _ & _ & _ & _ & _ & _ & Hf & _).
    assert (G : shutdown_guard (s_file s) = false)
      by (apply shutdown_guard_false; left; exact N1).
    rewrite G in Hf. simpl in *. rewrite Hf.
    destruct fired; flag_simp; auto.
  - intros [= <-]. unfold uv_close. simpl.
    destruct (has_flag (flags (s_file s)) UV_HANDLE_CLOSING); [auto|].
    simpl. flag_simp. auto.
Qed.

Lemma run_never_shut (acts : list action) :
  forall s s',
    forallb (fun a => negb (is_shutdown_request a)) acts = true ->
    has_flag (flags (s_file s)) UV_HANDLE_SHUTTING = false
    /\ has_flag (flags (s_file s)) UV_HANDLE_SHUT = false ->
    run acts s = Some s' ->
    has_flag (flags (s_file s')) UV_HANDLE_SHUTTING = false
    /\ has_flag (flags (s_file s')) UV_HANDLE_SHUT = false.
Proof.
  induction acts as [|a acts IH]; intros s s' Hn N; simpl in *.
  - intros [= <-]. exact N.
  - apply andb_true_iff in Hn. destruct Hn as (Ha & Hn).
    apply negb_true_iff in Ha.
    destruct (exec a s) as [s1|] eqn:E; [|discriminate].
    apply IH; [exact Hn|]. eapply exec_never_shut; eauto.
Qed.


(** ** Teardown *)

(** X9: the teardown makes progress.  On an initialised handle, after
    whatever the caller and the loop do, if closing is set, the handle is
    not closed and no request is in flight, one endgame call returns and
    leaves the handle closed with [reqs_pending] 0, whether or not a
    shutdown has been requested or carried out before. *)
Theorem teardown_progress (iocp : os_result unit) (posr : os_result Z)
    (h0 h : uv_file_t) (native : Z) (loop0 loop : uv_loop)
    (acts : list action) (s : sys) :
  uv_file_init iocp posr h0 native loop0 = (0, h, loop) ->
  run acts (mk_sys h loop []) = Some s ->
  has_flag (flags (s_file s)) UV_HANDLE_CLOSING = true ->
  has_flag (flags (s_file s)) UV_HANDLE_CLOSED = false ->
  s_inflight s = [] ->
  exists s',
    exec AEndgame s = Some s'
    /\ has_flag (flags (s_file s')) UV_HANDLE_CLOSED = true
    /\ reqs_pending (s_file s') = 0
    /\ s_inflight s' = [].
Proof.
  intros Hi R Hc Hn He. destruct (uv_file_init_success _ _ _ _ _ _ _ Hi) as (pos & F).
  rewrite F in R.
  assert (A : accounting s)
    by (eapply (run_invariant accounting exec_accounting); eauto using fresh_accounting).
  destruct A as (A1 & A2 & A3 & A4). rewrite He in A1, A2.
  change (count is_read []) with 0 in A1. change (count is_write []) with 0 in A2.
  simpl. unfold uv_file_endgame.
  destruct (endgame_shutdown (s_file s) (s_loop s)) as [h1 l1] eqn:E1.
  pose proof (endgame_shutdown_effect _ _ _ _ E1)
    as (_ & _ & S3 & _ & _ & S5 & S6 & S7 & S8 & S9).
  assert (V : virtual_req h1 = 0).
  { unfold virtual_req. rewrite S7.
    destruct (has_flag (flags (s_file s)) UV_HANDLE_SHUTTING) eqn:Hs; [|reflexivity].
    destruct (has_flag (flags h1) UV_HANDLE_SHUT) eqn:Hs1; [reflexivity|].
    exfalso.
    assert (G : shutdown_guard (s_file s) = true).
    { apply shutdown_guard_true. split; [exact Hs|]. split; [|exact A2].
      destruct (has_flag (flags (s_file s)) UV_HANDLE_SHUT) eqn:Hx; [|reflexivity].
      specialize (S8 eq_refl). discriminate. }
    rewrite (endgame_shutdown_runs _ _ G) in E1. injection E1 as <- _.
    simpl in Hs1. rewrite has_add_flag_same in Hs1 by discriminate. discriminate. }
  assert (G1 : close_guard h1 = true).
  { apply close_guard_true. split; [congruence | lia]. }
  unfold endgame_close. rewrite G1, S6, Hn.
  eexists. split; [reflexivity|]. simpl.
  split; [apply has_add_flag_same; discriminate|].
  apply close_guard_true in G1. destruct G1 as (_ & G1). auto.
Qed.

Lemma typed_counts_nil (l : list uv_req) :
  forallb (fun r => is_read r || is_write r) l = true ->
  count is_read l = 0 -> count is_write l = 0 -> l = [].
Proof.
  destruct l as [|r l]; [reflexivity|]. unfold count. simpl.
  intros T. apply andb_true_iff in T. destruct T as (T & _).
  destruct (is_read r); [cbn -[Z.of_nat]; lia|].
  destruct (is_write r); [cbn -[Z.of_nat]; lia | discriminate].
Qed.

(** X10: a handle becomes closed only when nothing is in flight, with or
    without a close callback.  On an initialised handle, after whatever the
    caller and the loop do, an endgame call that turns a handle that is not
    closed into a closed one leaves no request in flight and all five
    counters at 0. *)
Theorem closed_only_when_quiescent (iocp : os_result unit) (posr : os_result Z)
    (h0 h : uv_file_t) (native : Z) (loop0 loop : uv_loop)
    (acts : list action) (s s' : sys) :
  uv_file_init iocp posr h0 native loop0 = (0, h, loop) ->
  run acts (mk_sys h loop []) = Some s ->
  exec AEndgame s = Some s' ->
  has_flag (flags (s_file s)) UV_HANDLE_CLOSED = false ->
  has_flag (flags (s_file s')) UV_HANDLE_CLOSED = true ->
  s_inflight s' = [] /\ counters (s_file s') = (0, 0, 0, 0, 0).
Proof.
  intros Hi R E Hn Hc. destruct (uv_file_init_success _ _ _ _ _ _ _ Hi) as (pos & F).
  rewrite F in R.
  assert (A : accounting s)
    by (eapply (run_invariant accounting exec_accounting); eauto using fresh_accounting).
  assert (Q : queue_accounting s)
    by (eapply (run_invariant queue_accounting exec_queue_accounting);
        eauto using fresh_queue_accounting).
  pose proof (exec_accounting _ _ _ A E) as (A1 & A2 & A3 & _).
  pose proof (exec_queue_accounting _ _ _ Q E) as (Q1 & Q2 & Q3).
  assert (Z0 : reqs_pending (s_file s') = 0).
  { revert E. simpl.
    destruct (uv_file_endgame (s_file s) (s_loop s)) as [[f l]|] eqn:E; [|discriminate].
    intros [= <-]. simpl in *. apply endgame_shape in E.
    destruct E as (fired & _ & _ & _ & _ & _ & _ & _ & _ & _ & Hf & _ & _ & Ft & _).
    destruct fired; [apply Ft; reflexivity|].
    exfalso. rewrite Hf in Hc. simpl in Hc.
    destruct (shutdown_guard (s_file s)); revert Hc; flag_simp; congruence. }
  pose proof (count_nonneg is_read (s_inflight s')).
  pose proof (count_nonneg is_write (s_inflight s')).
  pose proof (virtual_req_range (s_file s')).
  assert (I : s_inflight s' = []) by (apply typed_counts_nil; auto; lia).
  split; [exact I|].
  rewrite I in *. unfold counters. rewrite Q1, Q2, A1, A2, Z0. reflexivity.
Qed.

(** X11: no action ever clears a flag.  Whatever the caller and the loop
    do from whatever state, a flag of the handle that is set stays set:
    bound, shutting, shut, closing and closed are never taken back. *)
Theorem flags_never_cleared (acts : list action) (s s' : sys) (m : Z) :
  run acts s = Some s' ->
  has_flag (flags (s_file s)) m = true ->
  has_flag (flags (s_file s')) m = true.
Proof.
  intros R H. revert R.
  apply (run_invariant (fun s => has_flag (flags (s_file s)) m = true)); [|exact H].
  clear. intros a s s' H. destruct a; simpl.
  - destruct (uv_file_read_offset _ _ _ _ _ _ _ _ _) as [[[[ret r] f] l]|] eqn:E;
      [|discriminate].
    intros [= <-]. apply (submit_effect Read) in E. simpl.
    destruct E as (-> & _). exact H.
  - destruct (uv_file_write_offset _ _ _ _ _ _ _ _ _) as [[[[ret r] f] l]|] eqn:E;
      [|discriminate].
    intros [= <-]. apply (submit_effect Write) in E. simpl.
    destruct E as (-> & _). exact H.
  - destruct (nth_error (s_inflight s) i) as [r|]; [|discriminate].
    destruct (deliver r err query (s_file s) (s_loop s)) as [[f l]|] eqn:E;
      [|discriminate].
    intros [= <-]. apply deliver_effect in E. simpl.
    destruct E as (-> & _). exact H.
  - destruct (uv_file_endgame (s_file s) (s_loop s)) as [[f l]|] eqn:E; [|discriminate].
    intros [= <-]. apply endgame_shape in E.
    destruct E as (fired & _ & _ & _ & _ & _ & _ & _ & _ & _ & Hf & _).
    simpl. rewrite Hf. simpl.
    destruct (shutdown_guard (s_file s)), fired;
      repeat apply has_add_flag_mono; exact H.
  - intros [= <-]. unfold uv_shutdown. simpl.
    destruct (has_flag (flags (s_file s)) UV_HANDLE_SHUTTING); [exact H|].
    simpl. apply has_add_flag_mono, H.
  - intros [= <-]. unfold uv_close. simpl.
    destruct (has_flag (flags (s_file s)) UV_HANDLE_CLOSING); [exact H|].
    simpl. apply has_add_flag_mono, H.
Qed.

(** X12: when the teardown runs on a handle with a close callback, the
    callback is given the handle as the endgame leaves it: flagged closed
    already, and, when the graceful shutdown step has run in the same
    call, with [CloseHandle] called before the callback, the native handle
    invalid and shut set.  No operating-system call and no other callback
    follows the close callback in that call, and the call releases the
    loop reference. *)
Theorem close_callback_view (h : uv_file_t) (loop : uv_loop) (f : nat) :
  has_flag (flags h) UV_HANDLE_CLOSING = true ->
  has_flag (flags h) UV_HANDLE_CLOSED = false ->
  close_cb h = Some f ->
  reqs_pending h = (if shutdown_guard h then 1 else 0) ->
  exists h' l',
    uv_file_endgame h loop = Some (h', l')
    /\ log l' = log loop
                ++ (if shutdown_guard h then [EvCloseHandle (handle h)] else [])
                ++ [EvCloseCb f h']
    /\ has_flag (flags h') UV_HANDLE_CLOSED = true
    /\ handle h' = (if shutdown_guard h then INVALID_HANDLE_VALUE else handle h)
    /\ (shutdown_guard h = true -> has_flag (flags h') UV_HANDLE_SHUT = true)
    /\ reqs_pending h' = 0
    /\ refs l' = refs loop - 1.
Proof.
  intros Hc Hn Hf Hr. unfold uv_file_endgame.
  destruct (shutdown_guard h) eqn:G.
  - rewrite (endgame_shutdown_runs h loop G).
    unfold endgame_close, close_guard. simpl. flag_simp.
    rewrite Hc, Hn, Hr, Hf. simpl.
    do 2 eexists. split; [reflexivity|]. simpl. flag_simp.
    rewrite <- app_assoc. repeat split.
  - rewrite (endgame_shutdown_skips h loop G).
    unfold endgame_close, close_guard. rewrite Hc, Hn, Hr. simpl. rewrite Hf.
    do 2 eexists. split; [reflexivity|]. simpl. flag_simp.
    repeat split; auto. discriminate.
Qed.

(** ** The cursor over whole runs *)

Lemma issued_bytes_app (l evs : list event) :
  issued_bytes (l ++ evs) = issued_bytes l + issued_bytes evs.
Proof. unfold issued_bytes. now rewrite map_app, sum_app. Qed.

Lemma issued_bytes_os_call (dir : direction) (fc : uv_file_t) (rc : uv_req)
    (b0 : uv_buf_t) (rest : list uv_buf_t) :
  bufs rc = b0 :: rest -> issued_bytes [os_call dir fc rc] = len b0.
Proof.
  intros Hb. unfold issued_bytes. destruct dir; simpl; rewrite Hb; lia.
Qed.

(** X13: the logical cursor counts the bytes asked of the operating
    system, and nothing else moves it.  From whatever state, after
    whatever the caller and the loop do, the cursor is the cursor at the
    start plus the lengths of all the [ReadFile] and [WriteFile] calls
    logged since (in 64-bit arithmetic): rejected submissions,
    completions, the endgame, shutdown and close requests leave it where
    it is, and a call that fails outright still counts. *)
Theorem cursor_counts_issued_bytes (acts : list action) (s s' : sys) :
  Int.in_int64 (file_pointer (s_file s)) ->
  run acts s = Some s' ->
  Int.in_int64 (file_pointer (s_file s'))
  /\ file_pointer (s_file s')
     = Int.wrap64 (file_pointer (s_file s)
                   + (issued_bytes (log (s_loop s')) - issued_bytes (log (s_loop s)))).
Proof.
  intros Hin R.
  set (c := file_pointer (s_file s) - issued_bytes (log (s_loop s))).
  assert (P : Int.in_int64 (file_pointer (s_file s'))
              /\ file_pointer (s_file s')
                 = Int.wrap64 (c + issued_bytes (log (s_loop s')))).
  { revert R.
    apply (run_invariant
             (fun x => Int.in_int64 (file_pointer (s_file x))
                       /\ file_pointer (s_file x)
                          = Int.wrap64 (c + issued_bytes (log (s_loop x))))).
    - clear. intros a x x' (I1 & I2).
      assert (Sub : forall dir req offset d bufs_ bufcnt_ cb_ os ret r f l,
                 submit dir req (s_file x) offset d bufs_ bufcnt_ cb_ os (s_loop x)
                   = Some (ret, r, f, l) ->
                 Int.in_int64 (file_pointer f)
                 /\ file_pointer f = Int.wrap64 (c + issued_bytes (log l))).
      { intros dir req offset d bufs_ bufcnt_ cb_ os ret r f l E.
        apply submit_shape in E.
        destruct E as [(_ & _ & -> & -> & _)
                      | (b0 & rest & fc & rc & Hb & -> & Hrc & _ & _ & _ & _ & _ & -> & _)].
        - auto.
        - split; [apply wrap64_range|].
          rewrite issued_bytes_app.
          rewrite (issued_bytes_os_call dir fc rc b0 rest) by congruence.
          rewrite I2. unfold Int.add64. rewrite wrap64_add_l. f_equal. lia. }
      destruct a; simpl.
      + destruct (uv_file_read_offset _ _ _ _ _ _ _ _ _) as [[[[ret r] f] l]|] eqn:E;
          [|discriminate].
        intros [= <-]. simpl. apply (Sub Read) in E. exact E.
      + destruct (uv_file_write_offset _ _ _ _ _ _ _ _ _) as [[[[ret r] f] l]|] eqn:E;
          [|discriminate].
        intros [= <-]. simpl. apply (Sub Write) in E. exact E.
      + destruct (nth_error (s_inflight x) i) as [r|]; [|discriminate].
        destruct (deliver r err query (s_file x) (s_loop x)) as [[f l]|] eqn:E;
          [|discriminate].
        intros [= <-]. apply deliver_shape in E.
        destruct E as (_ & _ & _ & _ & Hp & _ & _ & _ & _ & _ & _ & _ & evs & Hl & Hev).
        apply completion_events_inert in Hev. destruct Hev as (_ & Hev).
        simpl. rewrite Hp, Hl, issued_bytes_app, Hev, Z.add_0_r. auto.
      + destruct (uv_file_endgame (s_file x) (s_loop x)) as [[f l]|] eqn:E;
          [|discriminate].
        intros [= <-]. apply endgame_shape in E.
        destruct E as (fired & _ & _ & Hp & _ & _ & _ & _ & _ & _ & _ & _ & Hl & _).
        simpl. rewrite Hp, Hl, !issued_bytes_app.
        assert (Z1 : issued_bytes (if shutdown_guard (s_file x)
                                   then [EvCloseHandle (handle (s_file x))] else []) = 0)
          by (destruct (shutdown_guard (s_file x)); reflexivity).
        assert (Z2 : issued_bytes (if fired
                                   then match close_cb (s_file x) with
                                        | Some f0 => [EvCloseCb f0 f]
                                        | None => []
                                        end
                                   else []) = 0)
          by (destruct fired; [destruct (close_cb (s_file x))|]; reflexivity).
        rewrite Z1, Z2, !Z.add_0_r. auto.
      + intros [= <-]. unfold uv_shutdown. simpl.
        destruct (has_flag (flags (s_file x)) UV_HANDLE_SHUTTING); auto.
      + intros [= <-]. unfold uv_close. simpl.
        destruct (has_flag (flags (s_file x)) UV_HANDLE_CLOSING); auto.
    - split; [exact Hin|]. unfold c.
      replace (file_pointer (s_file s) - issued_bytes (log (s_loop s))
               + issued_bytes (log (s_loop s))) with (file_pointer (s_file s)) by lia.
      symmetry. apply wrap64_small, Hin. }
  destruct P as (P1 & P2). split; [exact P1|]. rewrite P2. unfold c. f_equal. lia.
Qed.

(** ** The callbacks of the test *)

(** One callback of the test: it counts itself, and calls [uv_close]
    exactly when the counters become 3 reads and 2 writes. *)
Lemma call_back_step (c : test_callback) (g g' : test_globals) :
  call_back c g = Some g' ->
  read_called g' = read_called g + one_if (is_CbRead c)
  /\ write_called g' = write_called g + one_if (negb (is_CbRead c))
  /\ close_called g' = close_called g
  /\ ((read_called g' = 3 /\ write_called g' = 2
       /\ exists hd, uv_close_calls g' = hd :: uv_close_calls g)
      \/ (~ (read_called g' = 3 /\ write_called g' = 2)
          /\ uv_close_calls g' = uv_close_calls g)).
Proof.
  destruct c as [req nread buf | req status]; simpl;
    unfold after_read, after_write.
  - destruct (negb (nread =? len buf)); [discriminate|].
    destruct (bufs req); [discriminate|]. simpl.
    destruct ((read_called g + 1 =? 3) && (write_called g =? 2)) eqn:T;
      intros [= <-]; simpl; unfold one_if; repeat (split; [lia|]).
    + apply andb_true_iff in T. rewrite !Z.eqb_eq in T. destruct T as (T1 & T2).
      left. split; [exact T1|]. split; [exact T2|]. eexists. reflexivity.
    + apply andb_false_iff in T. rewrite !Z.eqb_neq in T.
      right. split; [|reflexivity].
      intros (X1 & X2). destruct T as [T|T]; [exact (T X1) | exact (T X2)].
  - destruct (negb (status =? 0)); [discriminate|].
    destruct (bufs req); [discriminate|]. simpl.
    destruct ((read_called g =? 3) && (write_called g + 1 =? 2)) eqn:T;
      intros [= <-]; simpl; unfold one_if; repeat (split; [lia|]).
    + apply andb_true_iff in T. rewrite !Z.eqb_eq in T. destruct T as (T1 & T2).
      left. split; [exact T1|]. split; [exact T2|]. eexists. reflexivity.
    + apply andb_false_iff in T. rewrite !Z.eqb_neq in T.
      right. split; [|reflexivity].
      intros (X1 & X2). destruct T as [T|T]; [exact (T X1) | exact (T X2)].
Qed.

Lemma call_backs_counts (cs : list test_callback) :
  forall g g', call_backs cs g = Some g' ->
    read_called g' = read_called g + Z.of_nat (length (filter is_CbRead cs))
    /\ write_called g'
       = write_called g + Z.of_nat (length (filter (fun c => negb (is_CbRead c)) cs))
    /\ close_called g' = close_called g.
Proof.
  induction cs as [|c cs IH]; intros g g'; simpl.
  - intros [= <-]. repeat split; lia.
  - destruct (call_back c g) as [g1|] eqn:E; [|discriminate].
    intros R. apply IH in R. apply call_back_step in E.
    destruct E as (E1 & E2 & E3 & _). destruct R as (R1 & R2 & R3).
    rewrite R1, R2, R3, E1, E2, E3. unfold one_if.
    destruct (is_CbRead c); cbn -[Z.of_nat]; repeat split; lia.
Qed.

Lemma call_backs_close_at_most_once (cs : list test_callback) :
  forall g g', call_backs cs g = Some g' ->
    0 <= read_called g -> 0 <= write_called g ->
    (uv_close_calls g = [] \/ 5 <= read_called g + write_called g) ->
    (length (uv_close_calls g') <= S (length (uv_close_calls g)))%nat
    /\ (5 <= read_called g + write_called g -> uv_close_calls g' = uv_close_calls g).
Proof.
  induction cs as [|c cs IH]; intros g g'; simpl.
  - intros [= <-]. auto.
  - destruct (call_back c g) as [g1|] eqn:E; [|discriminate].
    intros R Hr Hw Hc. apply call_back_step in E.
    destruct E as (E1 & E2 & _ & E4).
    assert (Hr1 : 0 <= read_called g1) by (unfold one_if in E1; destruct (is_CbRead c); lia).
    assert (Hw1 : 0 <= write_called g1)
      by (unfold one_if in E2; destruct (negb (is_CbRead c)); lia).
    assert (S1 : read_called g1 + write_called g1 = read_called g + write_called g + 1)
      by (unfold one_if in *; destruct (is_CbRead c); simpl in *; lia).
    destruct E4 as [(T1 & T2 & hd & Eh) | (_ & Eh)].
    + destruct (IH g1 g' R Hr1 Hw1) as (_ & I2); [right; lia|].
      rewrite I2 by lia. rewrite Eh. simpl. split; [lia | intros; lia].
    + destruct (IH g1 g' R Hr1 Hw1) as (I1 & I2).
      { rewrite Eh. destruct Hc; [left; assumption | right; lia]. }
      rewrite Eh in *. split; [exact I1 | intros; apply I2; lia].
Qed.

Lemma call_backs_close_at_3_2 (cs : list test_callback) :
  forall g g', call_backs cs g = Some g' ->
    cs <> [] ->
    read_called g' = 3 -> write_called g' = 2 ->
    exists hd, uv_close_calls g' = hd :: uv_close_calls g.
Proof.
  induction cs as [|c cs IH]; intros g g'; simpl; [congruence|].
  destruct (call_back c g) as [g1|] eqn:E; [|discriminate].
  intros R _ H3 H2. apply call_back_step in E.
  destruct E as (_ & _ & _ & E4).
  destruct cs as [|c' cs].
  - simpl in R. injection R as <-.
    destruct E4 as [(_ & _ & He) | (N & _)]; [exact He|].
    exfalso. apply N. split; assumption.
  - destruct (IH g1 g' R) as (hd & Eh); [discriminate | exact H3 | exact H2 |].
    destruct E4 as [(T1 & T2 & _) | (_ & Eg)].
    + exfalso. apply call_backs_counts in R. destruct R as (R1 & R2 & _).
      assert (0 < Z.of_nat (length (filter is_CbRead (c' :: cs)))
                  + Z.of_nat (length (filter (fun c => negb (is_CbRead c)) (c' :: cs)))).
      { cbn -[Z.of_nat]. destruct (is_CbRead c'); cbn -[Z.of_nat]; lia. }
      lia.
    + exists hd. rewrite Eh, Eg. reflexivity.
Qed.

(** X14: the two completion callbacks of the test ask for the close of the
    handle at most once, whatever completions are delivered and in
    whatever order; they ask for it exactly once when exactly 3 reads and
    2 writes complete, and then in the last callback.  [read_called] and
    [write_called] count the callbacks, and [close_called] is left as it
    was, at 0. *)
Theorem test_callbacks_close_once (cs : list test_callback) (g : test_globals) :
  call_backs cs test_start = Some g ->
  read_called g = Z.of_nat (length (filter is_CbRead cs))
  /\ write_called g = Z.of_nat (length (filter (fun c => negb (is_CbRead c)) cs))
  /\ close_called g = close_called test_start
  /\ close_called g = 0
  /\ (length (uv_close_calls g) <= 1)%nat
  /\ (read_called g = 3 -> write_called g = 2 -> length (uv_close_calls g) = 1%nat)
  /\ (forall cs1 c g1,
        cs = cs1 ++ [c] -> call_backs cs1 test_start = Some g1 ->
        read_called g = 3 -> write_called g = 2 -> uv_close_calls g1 = []).
Proof.
  intros R.
  pose proof (call_backs_counts cs _ _ R) as (C1 & C2 & C3).
  pose proof (call_backs_close_at_most_once cs _ _ R) as (M & _);
    [simpl; lia | simpl; lia | left; reflexivity |].
  simpl in C1, C2, C3, M.
  split; [exact C1|]. split; [exact C2|]. split; [exact C3|]. split; [exact C3|].
  split; [exact M|]. split.
  - intros H3 H2. destruct cs as [|c cs].
    + simpl in R. injection R as <-. discriminate.
    + destruct (call_backs_close_at_3_2 _ _ _ R) as (hd & Eh); auto; [discriminate|].
      rewrite Eh. reflexivity.
  - intros cs1 c g1 -> R1 H3 H2.
    pose proof (call_backs_counts cs1 _ _ R1) as (D1 & D2 & _).
    pose proof (call_backs_close_at_most_once cs1 _ _ R1) as (M1 & _);
      [simpl; lia | simpl; lia | left; reflexivity |].
    rewrite !filter_app, !length_app in C1, C2. simpl in *.
    destruct (uv_close_calls g1) as [|x xs] eqn:Ex; [reflexivity|].
    exfalso.
    (* a close before the last callback means 3 reads and 2 writes were
       counted already *)
    assert (K : forall cs0 g0 g0', call_backs cs0 g0 = Some g0' ->
                uv_close_calls g0 = [] -> uv_close_calls g0' <> [] ->
                3 <= read_called g0' /\ 2 <= write_called g0').
    { clear. induction cs0 as [|c0 cs0 IH]; intros g0 g0'; simpl.
      - intros [= <-] E N. congruence.
      - destruct (call_back c0 g0) as [g2|] eqn:E; [|discriminate].
        intros R E0 N. pose proof (call_backs_counts cs0 _ _ R) as (K1 & K2 & _).
        apply call_back_step in E. destruct E as (_ & _ & _ & [(T1 & T2 & _) | (_ & Eg)]).
        + lia.
        + apply (IH g2 g0' R); [congruence | exact N]. }
    destruct (K cs1 _ _ R1 eq_refl) as (K1 & K2); [rewrite Ex; discriminate|].
    destruct (is_CbRead c); cbn -[Z.of_nat] in C1, C2; lia.
Qed.

(** ** Pending accounting *)

(** C2, as the code has it: on a handle that [uv_file_init] has just
    initialised, after any sequence of submissions, completions, endgame
    steps and shutdown and close requests, [reqs_pending] is
    [read_reqs_pending] plus [write_reqs_pending], plus one while a
    shutdown is requested and not yet carried out (shutting set, shut
    clear): the virtual request the graceful shutdown step takes off at
    line 56.  So [reqs_pending] is the sum of the two whenever shutting is
    clear or shut is set, and throughout a run with no shutdown request.
    None of the three counters is negative, and the two direction counters
    count the reads and the writes in flight. *)
Theorem pending_accounting (iocp : os_result unit) (posr : os_result Z)
    (h0 h : uv_file_t) (native : Z) (loop0 loop : uv_loop)
    (acts : list action) (s : sys) :
  uv_file_init iocp posr h0 native loop0 = (0, h, loop) ->
  run acts (mk_sys h loop []) = Some s ->
  reqs_pending (s_file s)
  = read_reqs_pending (s_file s) + write_reqs_pending (s_file s)
    + (if has_flag (flags (s_file s)) UV_HANDLE_SHUTTING
          && negb (has_flag (flags (s_file s)) UV_HANDLE_SHUT)
       then 1 else 0)
  /\ 0 <= reqs_pending (s_file s)
  /\ 0 <= read_reqs_pending (s_file s)
  /\ 0 <= write_reqs_pending (s_file s)
  /\ read_reqs_pending (s_file s) = count is_read (s_inflight s)
  /\ write_reqs_pending (s_file s) = count is_write (s_inflight s)
  /\ (has_flag (flags (s_file s)) UV_HANDLE_SHUTTING = false
      \/ has_flag (flags (s_file s)) UV_HANDLE_SHUT = true ->
      reqs_pending (s_file s)
      = read_reqs_pending (s_file s) + write_reqs_pending (s_file s))
  /\ (forallb (fun a => negb (is_shutdown_request a)) acts = true ->
      reqs_pending (s_file s)
      = read_reqs_pending (s_file s) + write_reqs_pending (s_file s)).
Proof.
  intros Hi R. destruct (uv_file_init_success _ _ _ _ _ _ _ Hi) as (pos & F).
  rewrite F in R.
  assert (A : accounting s)
    by (eapply (run_invariant accounting exec_accounting); eauto using fresh_accounting).
  destruct A as (A1 & A2 & A3 & _). unfold virtual_req in A3.
  pose proof (count_nonneg is_read (s_inflight s)) as Nr.
  pose proof (count_nonneg is_write (s_inflight s)) as Nw.
  assert (Hv : 0 <= (if has_flag (flags (s_file s)) UV_HANDLE_SHUTTING
                        && negb (has_flag (flags (s_file s)) UV_HANDLE_SHUT)
                     then 1 else 0))
    by (destruct (_ && _); discriminate).
  split; [exact A3|].
  split; [rewrite A3, A1, A2; apply Z.add_nonneg_nonneg;
          [apply Z.add_nonneg_nonneg|]; assumption|].
  split; [rewrite A1; exact Nr|]. split; [rewrite A2; exact Nw|].
  split; [exact A1|]. split; [exact A2|]. split.
  - intros [Hs | Hs]; rewrite A3, Hs; [|rewrite andb_false_r]; simpl; apply Z.add_0_r.
  - intros Hn.
    assert (N : has_flag (flags (s_file (fresh pos h0 native loop0))) UV_HANDLE_SHUTTING
                = false
                /\ has_flag (flags (s_file (fresh pos h0 native loop0))) UV_HANDLE_SHUT
                   = false).
    { destruct (fresh_file pos h0 native loop0) as (-> & _). split; reflexivity. }
    destruct (run_never_shut acts _ _ Hn N R) as (N1 & _).
    rewrite A3, N1. simpl. apply Z.add_0_r.
Qed.

End File.

(** * Examples

    The theorems above at the sample data. *)

Lemma cursor_reservation_witness :
  exists rs file' loop',
    submit_all sample_translate [sub_a; sub_b] sample_file sample_loop
      = Some (rs, file', loop')
    /\ file_pointer file' = 130
    /\ exists r, nth_error rs 1 = Some r /\ resolved r = 115.
Proof.
  destruct (cursor_reservation sample_translate sample_bits [sub_a; sub_b] sample_file sample_loop)
    as ((rs & f & l & calls & E & _ & Hf & Hn) & _).
  { unfold Int.in_int64, Int.half64. simpl. lia. }
  exists rs, f, l. split; [exact E|]. split; [rewrite Hf; reflexivity|].
  destruct (Hn 1%nat sub_b eq_refl) as (r & fc & rc & N & _ & _ & R & _).
  exists r. split; [exact N|]. rewrite R. reflexivity.
Defined.

(** C1 as it is stated fails on a submission whose requested offset is not
    0: the write [sub_b], submitted right after the read [sub_a] of 10 bytes
    on a handle whose cursor is 100, asks for offset 115, not for
    100 + 10. *)
Lemma cursor_reservation_counterexample :
  exists rs file' loop' r,
    submit_all sample_translate [sub_a; sub_b] sample_file sample_loop
      = Some (rs, file', loop')
    /\ nth_error rs 1 = Some r
    /\ resolved r = 115
    /\ file_pointer sample_file + Int.sum (firstn 1 (buf_lens [sub_a; sub_b])) = 110
    /\ resolved r <> file_pointer sample_file + Int.sum (firstn 1 (buf_lens [sub_a; sub_b])).
Proof.
  do 4 eexists. split; [reflexivity|]. split; [reflexivity|].
  split; [reflexivity|]. split; [reflexivity|]. discriminate.
Qed.

(** C2 as it is stated fails once a shutdown is requested: on the handle
    [uv_file_init] leaves, a write is submitted and stays pending, a
    shutdown is requested, and the endgame runs with the write still
    pending.  [reqs_pending] is 2, the two direction counters add up
    to 1.  The graceful shutdown step by itself moves [reqs_pending]
    against the two direction counters: on [sample_shutting] the endgame
    takes one off [reqs_pending] and leaves both direction counters, so
    the equation of the claim cannot hold both before and after lines
    52-57 run, whatever has brought the handle there. *)
Lemma pending_accounting_counterexample :
  uv_file_init sample_translate (OsOk tt) (OsOk 100) sample_h0 42 sample_loop0
  = (0, sample_file, sample_loop)
  /\ (exists s,
      run sample_translate sample_bits
          [AWrite sample_req 0 UV_CURRENT [mk_buf 0 20] 1 None os_pending;
           AShutdown; AEndgame]
          (mk_sys sample_file sample_loop []) = Some s
      /\ reqs_pending (s_file s) = 2
      /\ read_reqs_pending (s_file s) = 0
      /\ write_reqs_pending (s_file s) = 1
      /\ reqs_pending (s_file s)
         <> read_reqs_pending (s_file s) + write_reqs_pending (s_file s))
  /\ exists h' l',
      uv_file_endgame sample_shutting sample_loop = Some (h', l')
      /\ reqs_pending h' = reqs_pending sample_shutting - 1
      /\ read_reqs_pending h' = read_reqs_pending sample_shutting
      /\ write_reqs_pending h' = write_reqs_pending sample_shutting.
Proof.
  split; [vm_compute; reflexivity|]. split.
  - eexists. split; [vm_compute; reflexivity|].
    split; [reflexivity|]. split; [reflexivity|]. split; [reflexivity|]. discriminate.
  - do 2 eexists. split; [vm_compute; reflexivity|].
    split; [reflexivity|]. split; reflexivity.
Qed.

(** The same run, and the run [sample_io] with no shutdown request. *)
Lemma pending_accounting_witness :
  (exists s,
      run sample_translate sample_bits
          [AWrite sample_req 0 UV_CURRENT [mk_buf 0 20] 1 None os_pending;
           AShutdown; AEndgame]
          (mk_sys sample_file sample_loop []) = Some s
      /\ reqs_pending (s_file s) = 2
      /\ reqs_pending (s_file s)
         = read_reqs_pending (s_file s) + write_reqs_pending (s_file s)
           + (if has_flag (flags (s_file s)) UV_HANDLE_SHUTTING
                 && negb (has_flag (flags (s_file s)) UV_HANDLE_SHUT)
              then 1 else 0))
  /\ exists s,
      run sample_translate sample_bits sample_io (mk_sys sample_file sample_loop [])
      = Some s
      /\ reqs_pending (s_file s) = 1
      /\ reqs_pending (s_file s)
         = read_reqs_pending (s_file s) + write_reqs_pending (s_file s).
Proof.
  split.
  - eexists. split; [vm_compute; reflexivity|]. split; [reflexivity|].
    match goal with
    | |- reqs_pending (s_file ?s) = _ =>
        destruct (pending_accounting sample_translate sample_bits (OsOk tt) (OsOk 100)
                    sample_h0 sample_file 42 sample_loop0 sample_loop
                    [AWrite sample_req 0 UV_CURRENT [mk_buf 0 20] 1 None os_pending;
                     AShutdown; AEndgame] s) as (H & _);
          [vm_compute; reflexivity .. | exact H]
    end.
  - eexists. split; [vm_compute; reflexivity|]. split; [reflexivity|].
    match goal with
    | |- reqs_pending (s_file ?s) = _ =>
        destruct (pending_accounting sample_translate sample_bits (OsOk tt) (OsOk 100)
                    sample_h0 sample_file 42 sample_loop0 sample_loop sample_io s)
          as (_ & _ & _ & _ & _ & _ & _ & H);
          [vm_compute; reflexivity .. | apply H; vm_compute; reflexivity]
    end.
Defined.

Lemma close_ordering_witness :
  exists s,
    run sample_translate sample_bits sample_teardown (mk_sys sample_file sample_loop []) = Some s
    /\ close_cb_calls (s_loop s) = 1
    /\ close_cb_calls (s_loop s) <= 1
    /\ exec sample_translate sample_bits AEndgame s = None.
Proof.
  eexists. split; [vm_compute; reflexivity|]. split; [reflexivity|].
  match goal with
  | |- close_cb_calls (s_loop ?s) <= 1 /\ _ =>
      destruct (close_ordering sample_translate sample_bits (OsOk tt) (OsOk 100) sample_h0
                  sample_file 42 sample_loop0 sample_loop sample_teardown s)
        as (H1 & _ & _ & H4); [vm_compute; reflexivity .. |]
  end.
  split; [exact H1|].
  eapply H4; vm_compute; reflexivity.
Defined.

Lemma graceful_shutdown_step_witness :
  handle (fst (endgame_shutdown sample_shutting sample_loop)) = INVALID_HANDLE_VALUE
  /\ reqs_pending (fst (endgame_shutdown sample_shutting sample_loop)) = 1.
Proof.
  destruct (graceful_shutdown_step sample_shutting sample_loop) as (H & _).
  destruct H as (_ & H2 & _ & _ & H5 & _); [reflexivity..|].
  split; [exact H2 | exact H5].
Defined.

Lemma offset_resolution_witness :
  exists ret r f l,
    submit sample_translate Read sample_req sample_file (-7) UV_START
           [mk_buf 0 10] 1 None os_pending sample_loop = Some (ret, r, f, l)
    /\ resolved r = -7.
Proof.
  destruct (offset_resolution sample_translate Read sample_req sample_file (-7)
              (mk_buf 0 10) [] None os_pending sample_loop)
    as ((ret & r & f & l & E & _ & H) & _).
  exists ret, r, f, l. split; [exact E|].
  apply H. unfold Int.in_int64, Int.half64. lia.
Defined.

Lemma single_buffer_enforcement_witness :
  exists r f l,
    submit sample_translate Write sample_req sample_file 0 UV_CURRENT
           [mk_buf 0 10; mk_buf 0 20] 2 None os_pending sample_loop = Some (-1, r, f, l)
    /\ code (last_error l) = UV_ENOTSUP
    /\ file_pointer f = file_pointer sample_file
    /\ counters f = counters sample_file.
Proof.
  destruct (single_buffer_enforcement sample_translate Write sample_req sample_file 0
              UV_CURRENT [mk_buf 0 10; mk_buf 0 20] 2 None os_pending sample_loop)
    as (r & f & l & E & H1 & H2 & H3 & _).
  { right. lia. }
  exists r, f, l. repeat split; assumption.
Defined.

Lemma hard_failure_asymmetry_witness :
  exists r f l,
    submit sample_translate Read sample_req sample_file 0 UV_CURRENT
           [mk_buf 0 10] 1 None os_failed sample_loop = Some (-1, r, f, l)
    /\ last_error l = mk_err UV_EIO 5
    /\ counters f = counters sample_file
    /\ file_pointer f = 110.
Proof.
  destruct (hard_failure_asymmetry sample_translate Read sample_req sample_file 0
              UV_CURRENT (mk_buf 0 10) [] None os_failed sample_loop)
    as (r & f & l & E & H1 & H2 & H3).
  { discriminate. }
  { reflexivity. }
  { discriminate. }
  exists r, f, l. repeat split; assumption.
Defined.

(** With a 64-bit [ssize_t], the read callback of a completion whose query
    fails is given 4294967295, a positive count, and not -1. *)
Lemma completion_query_sentinel_witness :
  (exists h' l',
      uv_process_file_read_req sample_bits sample_shutting sample_read None sample_loop
      = Some (h', l')
      /\ log l' = log sample_loop
                  ++ [EvGetOverlappedResult 42 sample_read;
                      EvReadCb 3 sample_read 4294967295 (mk_buf 0 10)])
  /\ to_ssize_t sample_bits (bytes_transferred None) <> -1
  /\ to_ssize_t 32 (bytes_transferred None) = -1.
Proof.
  destruct (completion_query_sentinel sample_bits sample_shutting sample_read sample_loop
              3%nat (mk_buf 0 10) [])
    as (_ & _ & (h' & l' & E & L & _) & _ & H64 & _); [reflexivity ..|].
  destruct (H64 eq_refl) as (V & N & _).
  split; [|split; [exact N | reflexivity]].
  exists h', l'. split; [exact E|]. rewrite L, V. reflexivity.
Defined.

Lemma null_callback_tolerated_witness :
  uv_process_file_read_req sample_bits sample_shutting sample_read_no_cb None sample_loop
  = Some (mk_file UV_FILE 42 (add_flag UV_HANDLE_BOUND UV_HANDLE_SHUTTING) 1 0 0 0 0 110 None,
          emit (EvGetOverlappedResult 42 sample_read_no_cb) sample_loop).
Proof.
  destruct (null_callback_tolerated sample_bits sample_shutting sample_read_no_cb None sample_loop)
    as (H & _).
  { reflexivity. }
  destruct (H eq_refl) as (E & _). exact E.
Defined.

(** A read is submitted and stays pending, a shutdown is requested, and
    the endgame closes the native handle under the read. *)
Lemma shutdown_ignores_pending_reads_witness :
  (exists h' l',
      uv_file_endgame sample_shutting sample_loop = Some (h', l')
      /\ handle h' = INVALID_HANDLE_VALUE
      /\ 0 < read_reqs_pending h')
  /\ exists s,
      run sample_translate sample_bits
          [ARead sample_req 0 UV_CURRENT [mk_buf 0 10] 1 None os_pending;
           AShutdown; AEndgame]
          (mk_sys sample_file sample_loop []) = Some s
      /\ handle (s_file s) = INVALID_HANDLE_VALUE
      /\ count is_read (s_inflight s) = 1.
Proof.
  split.
  - destruct (shutdown_ignores_pending_reads sample_shutting sample_loop)
      as (_ & H & T); [reflexivity | reflexivity | reflexivity | reflexivity |].
    destruct (T eq_refl) as (h' & l' & E). exists h', l'.
    destruct (H h' l' E) as (_ & H2 & H3). repeat split; assumption.
  - eexists. split; [vm_compute; reflexivity|]. split; reflexivity.
Defined.

(** ** The further properties at the sample data *)

Lemma uv_file_init_outcome_witness :
  uv_file_init sample_translate (OsErr 6) (OsOk 100) sample_h0 42 sample_loop0
  = (-1, mk_file UV_FILE 42 0 0 0 0 0 0 10 None,
     mk_loop (mk_err UV_EIO 6) 1 1 [EvCreateIoCompletionPort 42]).
Proof.
  destruct (uv_file_init_outcome sample_translate (OsErr 6) (OsOk 100) sample_h0 42
              sample_loop0)
    as (r & h & l & E & _ & _ & _ & _ & _ & _ & _ & H & _).
  destruct (H 6 eq_refl) as (Hr & _). rewrite E. vm_compute in E.
  injection E as <- <- <-. reflexivity.
Defined.

Lemma submission_accepted_witness :
  exists r f l,
    submit sample_translate Write sample_req sample_shutting 7 UV_START
           [mk_buf 0 20] 1 None os_pending sample_loop = Some (0, r, f, l)
    /\ queued_bytes r = 20
    /\ write_queue_size f = 20
    /\ reqs_pending f = 3.
Proof.
  destruct (submission_accepted sample_translate Write sample_req sample_shutting 7
              UV_START (mk_buf 0 20) [] None os_pending sample_loop)
    as (r & f & l & E & _ & _ & _ & Hq & H1 & _ & _ & _ & H5 & _).
  { discriminate. }
  { right. reflexivity. }
  exists r, f, l. split; [exact E|]. simpl in Hq. split; [exact Hq|].
  split; [rewrite H5, Hq; reflexivity | rewrite H1; reflexivity].
Defined.

Lemma cursor_moves_by_length_witness :
  exists ret r f l,
    submit sample_translate Read sample_req sample_file 1000 UV_START
           [mk_buf 0 10] 1 None os_done sample_loop = Some (ret, r, f, l)
    /\ file_pointer f = 110.
Proof.
  destruct (cursor_moves_by_length sample_translate Read sample_req sample_file 1000
              UV_START (mk_buf 0 10) [] None os_done sample_loop)
    as (ret & r & f & l & E & _ & H).
  { discriminate. }
  exists ret, r, f, l. split; [exact E|]. rewrite H. reflexivity.
Defined.

Lemma submit_then_complete_witness :
  exists r f l f' l',
    submit sample_translate Read sample_req sample_file 0 UV_CURRENT
           [mk_buf 0 10] 1 (Some 3%nat) os_pending sample_loop = Some (0, r, f, l)
    /\ deliver sample_bits r uv_ok_ (Some 10) f l = Some (f', l')
    /\ counters f' = counters sample_file
    /\ file_pointer f' = 110.
Proof.
  destruct (submit_then_complete sample_translate sample_bits Read sample_req sample_file 0
              UV_CURRENT (mk_buf 0 10) [] (Some 3%nat) os_pending sample_loop
              uv_ok_ (Some 10))
    as (r & f & l & f' & l' & E & D & Hc & _ & _ & Hp).
  { discriminate. }
  { right. reflexivity. }
  { reflexivity. }
  exists r, f, l, f', l'. split; [exact E|]. split; [exact D|].
  split; [exact Hc|]. rewrite Hp. reflexivity.
Defined.

Lemma queue_bytes_accounting_witness :
  exists s,
    run sample_translate sample_bits sample_io (mk_sys sample_file sample_loop []) = Some s
    /\ read_queue_size (s_file s) = 10
    /\ read_queue_size (s_file s) = queued is_read (s_inflight s).
Proof.
  eexists. split; [vm_compute; reflexivity|]. split; [reflexivity|].
  match goal with
  | |- read_queue_size (s_file ?s) = _ =>
      destruct (queue_bytes_accounting sample_translate sample_bits (OsOk tt) (OsOk 100) sample_h0
                  sample_file 42 sample_loop0 sample_loop sample_io s) as (H & _);
        [vm_compute; reflexivity .. | exact H]
  end.
Defined.


Lemma loop_reference_released_once_witness :
  exists s,
    run sample_translate sample_bits sample_teardown (mk_sys sample_file sample_loop []) = Some s
    /\ has_flag (flags (s_file s)) UV_HANDLE_CLOSED = true
    /\ refs (s_loop s) = 0.
Proof.
  eexists. split; [vm_compute; reflexivity|]. split; [reflexivity|].
  match goal with
  | |- refs (s_loop ?s) = _ =>
      rewrite (loop_reference_released_once sample_translate sample_bits (OsOk tt) (OsOk 100)
                 sample_h0 sample_file 42 sample_loop0 sample_loop sample_teardown s);
        [reflexivity | vm_compute; reflexivity ..]
  end.
Defined.


Lemma teardown_progress_witness :
  exists s s',
    run sample_translate sample_bits sample_arm (mk_sys sample_file sample_loop []) = Some s
    /\ exec sample_translate sample_bits AEndgame s = Some s'
    /\ has_flag (flags (s_file s')) UV_HANDLE_CLOSED = true.
Proof.
  eexists.
  match goal with
  | |- exists s', run _ _ _ _ = Some ?s /\ _ =>
      assert (R : run sample_translate sample_bits sample_arm (mk_sys sample_file sample_loop [])
                  = Some s) by (vm_compute; reflexivity);
      destruct (teardown_progress sample_translate sample_bits (OsOk tt) (OsOk 100) sample_h0
                  sample_file 42 sample_loop0 sample_loop sample_arm s)
        as (s' & E & H & _); [vm_compute; reflexivity .. |];
      exists s'; split; [exact R | split; [exact E | exact H]]
  end.
Defined.

Lemma closed_only_when_quiescent_witness :
  exists s s',
    run sample_translate sample_bits sample_drain (mk_sys sample_file sample_loop []) = Some s
    /\ exec sample_translate sample_bits AEndgame s = Some s'
    /\ s_inflight s' = []
    /\ counters (s_file s') = (0, 0, 0, 0, 0).
Proof.
  eexists.
  match goal with
  | |- exists s', run _ _ _ _ = Some ?s /\ _ =>
      assert (R : run sample_translate sample_bits sample_drain (mk_sys sample_file sample_loop [])
                  = Some s) by (vm_compute; reflexivity);
      eexists; split; [exact R|]; split; [vm_compute; reflexivity|];
      match goal with
      | |- s_inflight ?s' = _ /\ _ =>
          apply (closed_only_when_quiescent sample_translate sample_bits (OsOk tt) (OsOk 100)
                   sample_h0 sample_file 42 sample_loop0 sample_loop sample_drain s s');
            vm_compute; reflexivity
      end
  end.
Defined.

Lemma flags_never_cleared_witness :
  exists s,
    run sample_translate sample_bits sample_teardown (mk_sys sample_file sample_loop []) = Some s
    /\ has_flag (flags (s_file s)) UV_HANDLE_BOUND = true.
Proof.
  eexists. split; [vm_compute; reflexivity|].
  match goal with
  | |- has_flag (flags (s_file ?s)) _ = _ =>
      apply (flags_never_cleared sample_translate sample_bits sample_teardown
               (mk_sys sample_file sample_loop []) s UV_HANDLE_BOUND);
        vm_compute; reflexivity
  end.
Defined.

Lemma close_callback_view_witness :
  exists h' l',
    uv_file_endgame sample_closing sample_loop = Some (h', l')
    /\ log l' = log sample_loop ++ [EvCloseHandle 42] ++ [EvCloseCb 9 h']
    /\ handle h' = INVALID_HANDLE_VALUE
    /\ has_flag (flags h') UV_HANDLE_CLOSED = true
    /\ refs l' = refs sample_loop - 1.
Proof.
  destruct (close_callback_view sample_closing sample_loop 9%nat)
    as (h' & l' & E & Hl & Hc & Hh & _ & _ & Hr); [reflexivity ..|].
  exists h', l'. split; [exact E|]. split; [exact Hl|]. split; [exact Hh|].
  split; [exact Hc | exact Hr].
Defined.

Lemma cursor_counts_issued_bytes_witness :
  exists s,
    run sample_translate sample_bits sample_io (mk_sys sample_file sample_loop []) = Some s
    /\ issued_bytes (log (s_loop s)) = 60
    /\ file_pointer (s_file s) = 160.
Proof.
  eexists. split; [vm_compute; reflexivity|]. split; [reflexivity|].
  match goal with
  | |- file_pointer (s_file ?s) = _ =>
      destruct (cursor_counts_issued_bytes sample_translate sample_bits sample_io
                  (mk_sys sample_file sample_loop []) s) as (_ & H);
        [unfold Int.in_int64, Int.half64; simpl; lia
        | vm_compute; reflexivity
        | rewrite H; reflexivity]
  end.
Defined.

Lemma test_callbacks_close_once_witness :
  exists g,
    call_backs sample_callbacks test_start = Some g
    /\ uv_close_calls g = [Some 42]
    /\ close_called g = 0
    /\ length (uv_close_calls g) = 1%nat.
Proof.
  eexists. split; [vm_compute; reflexivity|]. split; [reflexivity|].
  match goal with
  | |- close_called ?g = _ /\ _ =>
      destruct (test_callbacks_close_once sample_callbacks g)
        as (_ & _ & _ & H0 & _ & H & _);
        [vm_compute; reflexivity | split; [exact H0 | apply H; reflexivity]]
  end.
Defined.
